(** * ActuallyRedactPDF: the redaction engine (lib/pdf-redaction.ts)

    A shallow embedding of the redaction library: the destructive renderer
    [redactPdfByAreas], the two locators [findTextInPdf] and
    [detectSensitivePatterns], the sanitizer [sanitizePdf] and the verifier
    [verifyRedaction], together with a small model of the parts of pdf.js,
    pdf-lib and the canvas API that these functions call.

    Conventions.
    - JavaScript numbers are idealised as rationals ([Q]); [NaN], infinities
      and rounding are outside the model.  The only falsy number is zero.
    - JavaScript strings are [string]s whose characters are read as Latin-1
      code units.
    - A rejected promise or a thrown exception is the [Err] case of [result].
    - A PDF file is modelled by what the two libraries can observe of it:
      its pages (size, content objects) and its Info dictionary. *)

From Stdlib Require Import QArith Qminmax String Ascii List Permutation.
From stdpp Require Import gmap list strings.
Import ListNotations.

Local Open Scope string_scope.
Local Open Scope Q_scope.
Local Open Scope nat_scope.
Local Open Scope list_scope.

(** ** JavaScript numbers *)

(** [x || d] on numbers: the left operand unless it is falsy (zero). *)
Definition num_or (x d : Q) : Q := if Qeq_bool x 0 then d else x.

(** [x < y] as a boolean. *)
Definition num_ltb (x y : Q) : bool := negb (Qle_bool y x).

(** ** Errors *)

Inductive Error : Type :=
  | InvalidPDF                      (* getDocument / PDFDocument.load rejects *)
  | InvalidPageRequest (pageNum : nat)  (* getPage rejects *)
  | RenderFailure (pageNum : nat)   (* page.render(...).promise rejects *)
  | NoTermination.                  (* a loop that never ends *)

Inductive result (A : Type) : Type :=
  | Ok (a : A)
  | Err (e : Error).
Arguments Ok {A} a.
Arguments Err {A} e.

Definition bind {A B : Type} (m : result A) (k : A -> result B) : result B :=
  match m with
  | Ok a => k a
  | Err e => Err e
  end.

Notation "'let*' x := m 'in' k" := (bind m (fun x => k))
  (at level 10, x name, m at level 100, k at level 200).

(** A [for (const x of xs)] loop whose body may fail, threading the state
    the body mutates. *)
Fixpoint for_of {A St : Type} (xs : list A) (body : St -> A -> result St) (s : St)
  : result St :=
  match xs with
  | [] => Ok s
  | x :: rest => let* s' := body s x in for_of rest body s'
  end.

(** ** Data model of the library *)

Module Transform.
(** The six entries of a pdf.js text transform,
    [scaleX, skewX, skewY, scaleY, translateX, translateY]. *)
Record t : Type := mk { t0 : Q; t1 : Q; t2 : Q; t3 : Q; t4 : Q; t5 : Q }.
End Transform.

Module TextItem.
Record t : Type := mk {
  str : string;
  transform : Transform.t;
  width : Q;
  height : Q
}.
End TextItem.

Module RedactionArea.
Record t : Type := mk {
  pageIndex : nat;
  x : Q;
  y : Q;
  width : Q;
  height : Q
}.
End RedactionArea.

Module TextMatch.
Record t : Type := mk {
  pageIndex : nat;
  text : string;
  x : Q;
  y : Q;
  width : Q;
  height : Q
}.
End TextMatch.

Inductive PatternType : Type := ssn | email | phone | credit_card.

Global Instance PatternType_eq_dec : EqDecision PatternType.
Proof. solve_decision. Defined.

Module PatternMatch.
Record t : Type := mk {
  pageIndex : nat;
  text : string;
  pattern : string;
  patternType : PatternType;
  x : Q;
  y : Q;
  width : Q;
  height : Q
}.
End PatternMatch.

(** ** The PDF file as the libraries see it *)

(** Content of a page.  An image made by the renderer is kept symbolically,
    as the sequence of paint operations that produced its pixels. *)
Inductive PageObject : Type :=
  | TextObject (item : TextItem.t)
  | MarkedContent
  | ImageObject (img : Image) (x y w h : Q)
with Image : Type :=
  | Png (cw ch : Q) (paint : list CanvasOp)
with CanvasOp : Type :=
  | RenderPage (content : list PageObject) (vw vh : Q)
  | FillRect (fillStyle : string) (x y w h : Q).

Record Page : Type := mkPage {
  pg_width : Q;             (* width of the viewport at scale 1 *)
  pg_height : Q;            (* height of the viewport at scale 1 *)
  pg_content : list PageObject;
  pg_renders : bool         (* false: page.render(...).promise rejects *)
}.

(** The Info dictionary.  An entry that is absent is [None]. *)
Record Metadata : Type := mkMetadata {
  md_title : option string;
  md_author : option string;
  md_subject : option string;
  md_keywords : option (list string);
  md_producer : option string;
  md_creator : option string;
  md_creationDate : option Z;
  md_modificationDate : option Z
}.

Record PdfFile : Type := mkPdf {
  pdf_pages : list Page;
  pdf_info : Metadata
}.

(** The bytes handed to the library: a PDF file, or something that does not
    parse as one. *)
Inductive ArrayBuffer : Type :=
  | PdfData (f : PdfFile)
  | Garbage.

(** ** pdf.js *)

Module pdfjsLib.

Definition getDocument (data : ArrayBuffer) : result PdfFile :=
  match data with
  | PdfData f => Ok f
  | Garbage => Err InvalidPDF
  end.

Definition numPages (doc : PdfFile) : nat := length (pdf_pages doc).

(** Page numbers are 1-based. *)
Definition getPage (doc : PdfFile) (pageNum : nat) : result Page :=
  match pageNum with
  | O => Err (InvalidPageRequest pageNum)
  | S i =>
      match pdf_pages doc !! i with
      | Some p => Ok p
      | None => Err (InvalidPageRequest pageNum)
      end
  end.

Record Viewport : Type := mkViewport { vp_width : Q; vp_height : Q }.

Definition getViewport (page : Page) (scale : Q) : Viewport :=
  {| vp_width := (pg_width page * scale)%Q;
     vp_height := (pg_height page * scale)%Q |}.

(** Items of [getTextContent]: text items, which have a [str], and
    marked-content items, which have none. *)
Inductive Item : Type :=
  | TextI (textItem : TextItem.t)
  | MarkedI.

(** Only text-showing content yields items: an image contributes none. *)
Definition getTextContent (page : Page) : list Item :=
  omap (fun o => match o with
                 | TextObject ti => Some (TextI ti)
                 | MarkedContent => Some MarkedI
                 | ImageObject _ _ _ _ _ => None
                 end) (pg_content page).

End pdfjsLib.

(** ** The canvas *)

Module Canvas.

Record t : Type := mk {
  width : Q;
  height : Q;
  fillStyle : string;
  paint : list CanvasOp      (* in painting order *)
}.

Definition createElement : t :=
  {| width := 300; height := 150; fillStyle := "#000000"; paint := [] |}.

Definition set_width (w : Q) (c : t) : t :=
  {| width := w; height := height c; fillStyle := fillStyle c; paint := paint c |}.
Definition set_height (h : Q) (c : t) : t :=
  {| width := width c; height := h; fillStyle := fillStyle c; paint := paint c |}.
Definition set_fillStyle (s : string) (c : t) : t :=
  {| width := width c; height := height c; fillStyle := s; paint := paint c |}.

Definition fillRect (x y w h : Q) (c : t) : t :=
  {| width := width c; height := height c; fillStyle := fillStyle c;
     paint := paint c ++ [FillRect (fillStyle c) x y w h] |}.

(** [page.render({canvasContext, viewport, canvas}).promise]; [pageNum] is
    only used to name the failure. *)
Definition render (pageNum : nat) (page : Page) (viewport : pdfjsLib.Viewport)
    (c : t) : result t :=
  if pg_renders page then
    Ok {| width := width c; height := height c; fillStyle := fillStyle c;
          paint := paint c ++ [RenderPage (pg_content page)
                                 (pdfjsLib.vp_width viewport)
                                 (pdfjsLib.vp_height viewport)] |}
  else Err (RenderFailure pageNum).

(** [dataUrlToBytes(canvas.toDataURL('image/png', 1.0))]: the PNG bytes of
    what has been painted. *)
Definition toPng (c : t) : Image := Png (width c) (height c) (paint c).

End Canvas.

(** ** pdf-lib *)

Module PDFDocument.

Definition pdflib_name : string := "pdf-lib (https://github.com/Hopding/pdf-lib)".

(** [PDFDocument.create()]: no pages; pdf-lib stamps its own producer and
    creator and the current time. *)
Definition create (now : Z) : PdfFile :=
  {| pdf_pages := [];
     pdf_info := {| md_title := None; md_author := None; md_subject := None;
                    md_keywords := None;
                    md_producer := Some pdflib_name;
                    md_creator := Some pdflib_name;
                    md_creationDate := Some now;
                    md_modificationDate := Some now |} |}.

Definition load (data : ArrayBuffer) : result PdfFile :=
  match data with
  | PdfData f => Ok f
  | Garbage => Err InvalidPDF
  end.

Definition with_info (f : Metadata -> Metadata) (doc : PdfFile) : PdfFile :=
  {| pdf_pages := pdf_pages doc; pdf_info := f (pdf_info doc) |}.

Definition setTitle (s : string) : PdfFile -> PdfFile :=
  with_info (fun m =>
    mkMetadata (Some s) (md_author m) (md_subject m) (md_keywords m)
      (md_producer m) (md_creator m) (md_creationDate m) (md_modificationDate m)).
Definition setAuthor (s : string) : PdfFile -> PdfFile :=
  with_info (fun m =>
    mkMetadata (md_title m) (Some s) (md_subject m) (md_keywords m)
      (md_producer m) (md_creator m) (md_creationDate m) (md_modificationDate m)).
Definition setSubject (s : string) : PdfFile -> PdfFile :=
  with_info (fun m =>
    mkMetadata (md_title m) (md_author m) (Some s) (md_keywords m)
      (md_producer m) (md_creator m) (md_creationDate m) (md_modificationDate m)).
Definition setKeywords (ks : list string) : PdfFile -> PdfFile :=
  with_info (fun m =>
    mkMetadata (md_title m) (md_author m) (md_subject m) (Some ks)
      (md_producer m) (md_creator m) (md_creationDate m) (md_modificationDate m)).
Definition setProducer (s : string) : PdfFile -> PdfFile :=
  with_info (fun m =>
    mkMetadata (md_title m) (md_author m) (md_subject m) (md_keywords m)
      (Some s) (md_creator m) (md_creationDate m) (md_modificationDate m)).
Definition setCreator (s : string) : PdfFile -> PdfFile :=
  with_info (fun m =>
    mkMetadata (md_title m) (md_author m) (md_subject m) (md_keywords m)
      (md_producer m) (Some s) (md_creationDate m) (md_modificationDate m)).
Definition setCreationDate (d : Z) : PdfFile -> PdfFile :=
  with_info (fun m =>
    mkMetadata (md_title m) (md_author m) (md_subject m) (md_keywords m)
      (md_producer m) (md_creator m) (Some d) (md_modificationDate m)).
Definition setModificationDate (d : Z) : PdfFile -> PdfFile :=
  with_info (fun m =>
    mkMetadata (md_title m) (md_author m) (md_subject m) (md_keywords m)
      (md_producer m) (md_creator m) (md_creationDate m) (Some d)).

(** [addPage([w, h])] followed by [drawImage(img, {x, y, width, height})]
    on the new page: the page is appended and holds the image only. *)
Definition addPage_drawImage (w h : Q) (img : Image) (ix iy iw ih : Q)
    (doc : PdfFile) : PdfFile :=
  {| pdf_pages := pdf_pages doc ++
       [ {| pg_width := w; pg_height := h;
            pg_content := [ImageObject img ix iy iw ih];
            pg_renders := true |} ];
     pdf_info := pdf_info doc |}.

Definition save (doc : PdfFile) : ArrayBuffer := PdfData doc.

End PDFDocument.

(** ** The destructive renderer *)

Import pdfjsLib.

(** Group redactions by page: the [Map<number, RedactionArea[]>] built by
    the first loop of [redactPdfByAreas]. *)
Definition group_area (m : gmap nat (list RedactionArea.t)) (area : RedactionArea.t)
  : gmap nat (list RedactionArea.t) :=
  let existing := default [] (m !! RedactionArea.pageIndex area) in
  <[RedactionArea.pageIndex area := existing ++ [area]]> m.

Definition redactionsByPage (redactionAreas : list RedactionArea.t)
  : gmap nat (list RedactionArea.t) :=
  foldl group_area ∅ redactionAreas.

(** Draw a black rectangle over one area, scaled to the render scale. *)
Definition paint_area (renderScale : Q) (c : Canvas.t) (area : RedactionArea.t)
  : Canvas.t :=
  let scaledX := (RedactionArea.x area * renderScale)%Q in
  let scaledY := (RedactionArea.y area * renderScale)%Q in
  let scaledWidth := (RedactionArea.width area * renderScale)%Q in
  let scaledHeight := (RedactionArea.height area * renderScale)%Q in
  Canvas.fillRect scaledX scaledY scaledWidth scaledHeight c.

(** The body of the page loop of [redactPdfByAreas]. *)
Definition redact_page (pdfJsDoc : PdfFile)
    (byPage : gmap nat (list RedactionArea.t)) (renderScale : Q)
    (newPdfDoc : PdfFile) (pageNum : nat) : result PdfFile :=
  let pageIndex := pageNum - 1 in
  let* page := getPage pdfJsDoc pageNum in
  let viewport := getViewport page renderScale in
  let canvas := Canvas.createElement in
  let canvas := Canvas.set_width (vp_width viewport) canvas in
  let canvas := Canvas.set_height (vp_height viewport) canvas in
  let* canvas := Canvas.render pageNum page viewport canvas in
  let pageRedactions := default [] (byPage !! pageIndex) in
  let canvas := Canvas.set_fillStyle "#000000" canvas in
  let canvas := foldl (paint_area renderScale) canvas pageRedactions in
  let pngImage := Canvas.toPng canvas in
  let originalViewport := getViewport page 1 in
  Ok (PDFDocument.addPage_drawImage
        (vp_width originalViewport) (vp_height originalViewport)
        pngImage 0 0 (vp_width originalViewport) (vp_height originalViewport)
        newPdfDoc).

(** [now] is the clock reading taken by [PDFDocument.create]. *)
Definition redactPdfByAreas (now : Z) (pdfBytes : ArrayBuffer)
    (redactionAreas : list RedactionArea.t) (renderScale : Q)
  : result ArrayBuffer :=
  let* pdfJsDoc := getDocument pdfBytes in
  let newPdfDoc := PDFDocument.create now in
  let byPage := redactionsByPage redactionAreas in
  let* newPdfDoc :=
    for_of (seq 1 (numPages pdfJsDoc))
           (redact_page pdfJsDoc byPage renderScale) newPdfDoc in
  let newPdfDoc := PDFDocument.setTitle "" newPdfDoc in
  let newPdfDoc := PDFDocument.setAuthor "" newPdfDoc in
  let newPdfDoc := PDFDocument.setSubject "" newPdfDoc in
  let newPdfDoc := PDFDocument.setKeywords [] newPdfDoc in
  let newPdfDoc :=
    PDFDocument.setProducer "ActuallyRedactPDF - True Redaction" newPdfDoc in
  let newPdfDoc := PDFDocument.setCreator "ActuallyRedactPDF" newPdfDoc in
  Ok (PDFDocument.save newPdfDoc).

(** The default render scale. *)
Definition default_renderScale : Q := 2.

(** ** The sanitizer *)

(** [created] and [modified] are the two clock readings, in this order, of
    the two [new Date()] of [sanitizePdf]. *)
Definition sanitizePdf (created modified : Z) (pdfBytes : ArrayBuffer)
  : result ArrayBuffer :=
  let* pdfDoc := PDFDocument.load pdfBytes in
  let pdfDoc := PDFDocument.setTitle "" pdfDoc in
  let pdfDoc := PDFDocument.setAuthor "" pdfDoc in
  let pdfDoc := PDFDocument.setSubject "" pdfDoc in
  let pdfDoc := PDFDocument.setKeywords [] pdfDoc in
  let pdfDoc := PDFDocument.setProducer "ActuallyRedactPDF - Sanitized" pdfDoc in
  let pdfDoc := PDFDocument.setCreator "ActuallyRedactPDF" pdfDoc in
  let pdfDoc := PDFDocument.setCreationDate created pdfDoc in
  let pdfDoc := PDFDocument.setModificationDate modified pdfDoc in
  Ok (PDFDocument.save pdfDoc).

(** ** The verifier *)

Record VerifyResult : Type := mkVerify {
  success : bool;
  extractedText : list string
}.

(** The test of [verifyRedaction] on one text item of a page whose viewport
    at scale 1 has height [viewportHeight]. *)
Definition item_overlaps (viewportHeight : Q) (area : RedactionArea.t)
    (textItem : TextItem.t) : bool :=
  let x := Transform.t4 (TextItem.transform textItem) in
  let y := (viewportHeight - Transform.t5 (TextItem.transform textItem))%Q in
  num_ltb x (RedactionArea.x area + RedactionArea.width area)
  && num_ltb (RedactionArea.x area) (x + num_or (TextItem.width textItem) 0)
  && num_ltb y (RedactionArea.y area + RedactionArea.height area)
  && num_ltb (RedactionArea.y area) (y + num_or (TextItem.height textItem) 12).

Definition verify_item (viewportHeight : Q) (area : RedactionArea.t)
    (extractedText : list string) (item : Item) : list string :=
  match item with
  | MarkedI => extractedText
  | TextI textItem =>
      if item_overlaps viewportHeight area textItem
      then extractedText ++ [TextItem.str textItem]
      else extractedText
  end.

(** The body of the area loop of [verifyRedaction]. *)
Definition verify_area (pdfJsDoc : PdfFile) (extractedText : list string)
    (area : RedactionArea.t) : result (list string) :=
  if numPages pdfJsDoc <=? RedactionArea.pageIndex area then Ok extractedText
  else
    let* page := getPage pdfJsDoc (RedactionArea.pageIndex area + 1) in
    let textContent := getTextContent page in
    let viewport := getViewport page 1 in
    Ok (foldl (verify_item (vp_height viewport) area) extractedText textContent).

Definition verifyRedaction (pdfBytes : ArrayBuffer)
    (redactionAreas : list RedactionArea.t) : result VerifyResult :=
  let* pdfJsDoc := getDocument pdfBytes in
  let* extractedText := for_of redactionAreas (verify_area pdfJsDoc) [] in
  Ok {| success := length extractedText =? 0; extractedText := extractedText |}.

(** ** Strings *)

Definition code (c : ascii) : nat := nat_of_ascii c.

Definition in_range (lo hi : nat) (c : ascii) : bool :=
  (lo <=? code c) && (code c <=? hi).

Definition is_digit (c : ascii) : bool := in_range 48 57 c.
Definition is_upper (c : ascii) : bool := in_range 65 90 c.
Definition is_lower (c : ascii) : bool := in_range 97 122 c.
Definition is_alnum (c : ascii) : bool := is_upper c || is_lower c || is_digit c.

(** [\w]: letters, digits and the underscore. *)
Definition is_word (c : ascii) : bool := is_alnum c || (code c =? 95).

(** [\s] on Latin-1: tab, line feed, vertical tab, form feed, carriage
    return, space and the no-break space. *)
Definition is_space (c : ascii) : bool :=
  in_range 9 13 c || (code c =? 32) || (code c =? 160).

Definition one_of (s : string) (c : ascii) : bool :=
  existsb (Ascii.eqb c) (list_ascii_of_string s).

(** [String.prototype.toLowerCase] on Latin-1: A-Z and the accented
    capitals U+00C0-U+00DE (but not the multiplication sign U+00D7). *)
Definition lower_char (c : ascii) : ascii :=
  if is_upper c || (in_range 192 222 c && negb (code c =? 215))
  then ascii_of_nat (code c + 32) else c.

Fixpoint toLowerCase (s : string) : string :=
  match s with
  | EmptyString => EmptyString
  | String c rest => String (lower_char c) (toLowerCase rest)
  end.

(** [text.includes(search)]. *)
Fixpoint includes (text search : string) : bool :=
  String.prefix search text ||
  match text with
  | EmptyString => false
  | String _ rest => includes rest search
  end.

(** ** Regular expressions

    The fragment of JavaScript regular expressions that [PATTERNS] uses,
    with the backtracking matcher written as a list of successes: the
    results are in the order in which backtracking tries them, so the match
    the engine reports is the first of the list. *)

Inductive Regex : Type :=
  | WordBoundary                              (* \b *)
  | CharSet (p : ascii -> bool)               (* a class or a literal *)
  | Cat (r1 r2 : Regex)
  | Opt (r : Regex)                           (* r?, greedy *)
  | AtLeast (n : nat) (p : ascii -> bool)     (* [..]{n,}, greedy *)
  | Times (n : nat) (r : Regex).              (* r{n} *)

(** A position in the subject: the character before it, if any, and the
    characters from it on. *)
Definition Pos : Type := (option ascii * list ascii)%type.

Definition at_boundary (st : Pos) : bool :=
  let before := match fst st with Some c => is_word c | None => false end in
  let after := match snd st with c :: _ => is_word c | [] => false end in
  xorb before after.

(** The positions after [k >= n - count] more characters of the class,
    the longest run first. *)
Fixpoint greedy (p : ascii -> bool) (n count : nat) (prev : option ascii)
    (s : list ascii) : list Pos :=
  match s with
  | c :: s' => if p c then greedy p n (S count) (Some c) s' else []
  | [] => []
  end ++ (if n <=? count then [(prev, s)] else []).

(** [n] successive matches of [f], in backtracking order. *)
Fixpoint repeat_run (f : Pos -> list Pos) (n : nat) (st : Pos) : list Pos :=
  match n with
  | O => [st]
  | S n' => flat_map (repeat_run f n') (f st)
  end.

Fixpoint run (r : Regex) (st : Pos) : list Pos :=
  match r with
  | WordBoundary => if at_boundary st then [st] else []
  | CharSet p =>
      match snd st with
      | c :: s' => if p c then [(Some c, s')] else []
      | [] => []
      end
  | Cat r1 r2 => flat_map (run r2) (run r1 st)
  | Opt r1 => run r1 st ++ [st]
  | AtLeast n p => greedy p n 0 (fst st) (snd st)
  | Times n r1 => repeat_run (run r1) n st
  end.

(** The least length of a match. *)
Fixpoint min_length (r : Regex) : nat :=
  match r with
  | WordBoundary => 0
  | CharSet _ => 1
  | Cat r1 r2 => min_length r1 + min_length r2
  | Opt _ => 0
  | AtLeast n _ => n
  | Times n r1 => n * min_length r1
  end.

(** Search for the leftmost match at or after the current position, which
    has index [index]: the index of the match and the matched text. *)
Fixpoint search (r : Regex) (prev : option ascii) (s : list ascii) (index : nat)
  : option (nat * string) :=
  match run r (prev, s) with
  | st' :: _ =>
      Some (index, string_of_list_ascii (take (length s - length (snd st')) s))
  | [] =>
      match s with
      | [] => None
      | c :: s' => search r (Some c) s' (S index)
      end
  end.

(** [regex.exec(text)] for a global regex whose [lastIndex] is [lastIndex]:
    [match.index] and [match[0]], or [None] for [null]. *)
Definition exec (r : Regex) (text : string) (lastIndex : nat)
  : option (nat * string) :=
  let s := list_ascii_of_string text in
  if length s <? lastIndex then None
  else search r (last (take lastIndex s)) (drop lastIndex s) lastIndex.

(** [while ((match = regex.exec(text)) !== null) body] for a fresh global
    regex: each match moves [lastIndex] to its end.  An empty match would
    leave [lastIndex] where it is and the loop would never end; [fuel]
    bounds the number of iterations. *)
Fixpoint exec_loop {St : Type} (fuel : nat) (r : Regex) (text : string)
    (lastIndex : nat) (body : St -> nat * string -> St) (s : St) : result St :=
  match fuel with
  | O => Err NoTermination
  | S fuel' =>
      match exec r text lastIndex with
      | None => Ok s
      | Some m =>
          exec_loop fuel' r text (fst m + String.length (snd m)) body (body s m)
      end
  end.

Definition while_exec {St : Type} (r : Regex) (text : string)
    (body : St -> nat * string -> St) (s : St) : result St :=
  exec_loop (String.length text + 2) r text 0 body s.

(** *** PATTERNS *)

Fixpoint cat (rs : list Regex) : Regex :=
  match rs with
  | [] => Times 0 WordBoundary
  | [r] => r
  | r :: rest => Cat r (cat rest)
  end.

Definition digit : Regex := CharSet is_digit.
Definition lit (c : ascii) : Regex := CharSet (Ascii.eqb c).

(** [[-\s]] and [[-.\s]] *)
Definition dash_space (c : ascii) : bool := one_of "-" c || is_space c.
Definition dash_dot_space (c : ascii) : bool := one_of "-." c || is_space c.

Definition PATTERNS (patternType : PatternType) : Regex :=
  match patternType with
  | ssn =>
      (* /\b\d{3}[-\s]?\d{2}[-\s]?\d{4}\b/g *)
      cat [WordBoundary; Times 3 digit; Opt (CharSet dash_space);
           Times 2 digit; Opt (CharSet dash_space); Times 4 digit; WordBoundary]
  | email =>
      (* /\b[A-Za-z0-9._%+-]+@[A-Za-z0-9.-]+\.[A-Z|a-z]{2,}\b/g *)
      cat [WordBoundary;
           AtLeast 1 (fun c => is_alnum c || one_of "._%+-" c);
           lit "@";
           AtLeast 1 (fun c => is_alnum c || one_of ".-" c);
           lit ".";
           AtLeast 2 (fun c => is_upper c || one_of "|" c || is_lower c);
           WordBoundary]
  | phone =>
      (* /\b(?:\+?1[-.\s]?)?(?:\(?\d{3}\)?[-.\s]?)?\d{3}[-.\s]?\d{4}\b/g *)
      cat [WordBoundary;
           Opt (cat [Opt (lit "+"); lit "1"; Opt (CharSet dash_dot_space)]);
           Opt (cat [Opt (lit "("); Times 3 digit; Opt (lit ")");
                     Opt (CharSet dash_dot_space)]);
           Times 3 digit; Opt (CharSet dash_dot_space); Times 4 digit;
           WordBoundary]
  | credit_card =>
      (* /\b(?:\d{4}[-\s]?){3}\d{4}\b/g *)
      cat [WordBoundary;
           Times 3 (cat [Times 4 digit; Opt (CharSet dash_space)]);
           Times 4 digit; WordBoundary]
  end.

(** ** The locators *)

(** Searching one text item of [findTextInPdf]. *)
Definition find_item (searchTermLower : string) (caseSensitive : bool)
    (pageNum : nat) (viewport : Viewport)
    (matches : list TextMatch.t) (item : Item) : list TextMatch.t :=
  match item with
  | MarkedI => matches
  | TextI textItem =>
      let text := if caseSensitive then TextItem.str textItem
                  else toLowerCase (TextItem.str textItem) in
      if includes text searchTermLower then
        let x := Transform.t4 (TextItem.transform textItem) in
        let y := (vp_height viewport
                  - Transform.t5 (TextItem.transform textItem))%Q in
        matches ++
        [ {| TextMatch.pageIndex := pageNum - 1;
             TextMatch.text := TextItem.str textItem;
             TextMatch.x := x;
             TextMatch.y := (y - num_or (TextItem.height textItem) 12)%Q;
             TextMatch.width := num_or (TextItem.width textItem) 100;
             TextMatch.height := (num_or (TextItem.height textItem) 12 + 4)%Q |} ]
      else matches
  end.

Definition find_page (pdfJsDoc : PdfFile) (searchTermLower : string)
    (caseSensitive : bool) (matches : list TextMatch.t) (pageNum : nat)
  : result (list TextMatch.t) :=
  let* page := getPage pdfJsDoc pageNum in
  let textContent := getTextContent page in
  let viewport := getViewport page 1 in
  Ok (foldl (find_item searchTermLower caseSensitive pageNum viewport)
            matches textContent).

Definition findTextInPdf (pdfBytes : ArrayBuffer) (searchTerm : string)
    (caseSensitive : bool) : result (list TextMatch.t) :=
  let* pdfJsDoc := getDocument pdfBytes in
  let searchTermLower :=
    if caseSensitive then searchTerm else toLowerCase searchTerm in
  for_of (seq 1 (numPages pdfJsDoc))
         (find_page pdfJsDoc searchTermLower caseSensitive) [].

(** An entry of [positionMap]. *)
Record Position : Type := mkPosition {
  pos_start : nat;
  pos_end : nat;
  pos_item : TextItem.t
}.

(** Building [fullText] and [positionMap], one item at a time. *)
Definition add_item (st : string * list Position) (item : Item)
  : string * list Position :=
  match item with
  | MarkedI => st
  | TextI textItem =>
      let '(fullText, positionMap) := st in
      let start := String.length fullText in
      let fullText := (fullText ++ (TextItem.str textItem ++ " "))%string in
      (fullText,
       positionMap ++ [ {| pos_start := start;
                           pos_end := String.length fullText - 1;
                           pos_item := textItem |} ])
  end.

Definition build_fullText (items : list Item) : string * list Position :=
  foldl add_item (EmptyString, []) items.

(** The inner loop over [positionMap]: the first entry whose range contains
    [matchStart]; the loop breaks there. *)
Definition first_position (positionMap : list Position) (matchStart : nat)
  : option Position :=
  List.find (fun pos => (pos_start pos <=? matchStart)
                        && (matchStart <=? pos_end pos)) positionMap.

(** The body of the [while] over the matches of one pattern. *)
Definition add_match (pageNum : nat) (viewport : Viewport)
    (positionMap : list Position) (patternType : PatternType)
    (matches : list PatternMatch.t) (m : nat * string) : list PatternMatch.t :=
  let matchStart := fst m in
  match first_position positionMap matchStart with
  | Some pos =>
      let x := Transform.t4 (TextItem.transform (pos_item pos)) in
      let y := (vp_height viewport
                - Transform.t5 (TextItem.transform (pos_item pos)))%Q in
      matches ++
      [ {| PatternMatch.pageIndex := pageNum - 1;
           PatternMatch.text := snd m;
           PatternMatch.pattern := snd m;
           PatternMatch.patternType := patternType;
           PatternMatch.x := x;
           PatternMatch.y := (y - num_or (TextItem.height (pos_item pos)) 12)%Q;
           PatternMatch.width := num_or (TextItem.width (pos_item pos)) 100;
           PatternMatch.height :=
             (num_or (TextItem.height (pos_item pos)) 12 + 4)%Q |} ]
  | None => matches
  end.

(** The body of the loop over [patternTypes]. *)
Definition detect_pattern (pageNum : nat) (viewport : Viewport)
    (fullText : string) (positionMap : list Position)
    (matches : list PatternMatch.t) (patternType : PatternType)
  : result (list PatternMatch.t) :=
  let regex := PATTERNS patternType in
  while_exec regex fullText
             (add_match pageNum viewport positionMap patternType) matches.

Definition detect_page (pdfJsDoc : PdfFile) (patternTypes : list PatternType)
    (matches : list PatternMatch.t) (pageNum : nat)
  : result (list PatternMatch.t) :=
  let* page := getPage pdfJsDoc pageNum in
  let textContent := getTextContent page in
  let viewport := getViewport page 1 in
  let '(fullText, positionMap) := build_fullText textContent in
  for_of patternTypes (detect_pattern pageNum viewport fullText positionMap)
         matches.

Definition detectSensitivePatterns (pdfBytes : ArrayBuffer)
    (patternTypes : list PatternType) : result (list PatternMatch.t) :=
  let* pdfJsDoc := getDocument pdfBytes in
  for_of (seq 1 (numPages pdfJsDoc)) (detect_page pdfJsDoc patternTypes) [].

(** The default value of [patternTypes]. *)
Definition all_patternTypes : list PatternType :=
  [ssn; email; phone; credit_card].

Definition patternMatchesToRedactions (matches : list PatternMatch.t)
  : list RedactionArea.t :=
  map (fun m => {| RedactionArea.pageIndex := PatternMatch.pageIndex m;
                   RedactionArea.x := PatternMatch.x m;
                   RedactionArea.y := PatternMatch.y m;
                   RedactionArea.width := PatternMatch.width m;
                   RedactionArea.height := PatternMatch.height m |}) matches.

(** ** What the renderer produces *)

(** The areas of one page, in the order of the list. *)
Definition on_page (i : nat) (areas : list RedactionArea.t) : list RedactionArea.t :=
  filter (fun a => RedactionArea.pageIndex a = i) areas.

(** The mask painted for one area. *)
Definition mask (renderScale : Q) (area : RedactionArea.t) : CanvasOp :=
  FillRect "#000000"
           (RedactionArea.x area * renderScale)%Q
           (RedactionArea.y area * renderScale)%Q
           (RedactionArea.width area * renderScale)%Q
           (RedactionArea.height area * renderScale)%Q.

(** The image that replaces a page: the page rendered at the render scale,
    then the masks of the areas of that page, in the order of the list. *)
Definition flattened_image (areas : list RedactionArea.t) (renderScale : Q)
    (pageIndex : nat) (page : Page) : Image :=
  let w := (pg_width page * renderScale)%Q in
  let h := (pg_height page * renderScale)%Q in
  Png w h (RenderPage (pg_content page) w h
           :: map (mask renderScale) (on_page pageIndex areas)).

Definition flattened (areas : list RedactionArea.t) (renderScale : Q)
    (pageIndex : nat) (page : Page) : Page :=
  let w := (pg_width page * 1)%Q in
  let h := (pg_height page * 1)%Q in
  {| pg_width := w; pg_height := h;
     pg_content :=
       [ImageObject (flattened_image areas renderScale pageIndex page) 0 0 w h];
     pg_renders := true |}.

Fixpoint flatten_pages (areas : list RedactionArea.t) (renderScale : Q)
    (pageIndex : nat) (pages : list Page) : list Page :=
  match pages with
  | [] => []
  | p :: rest =>
      flattened areas renderScale pageIndex p
      :: flatten_pages areas renderScale (S pageIndex) rest
  end.

(** The Info dictionary of every document the renderer returns. *)
Definition redacted_info (now : Z) : Metadata :=
  {| md_title := Some ""; md_author := Some ""; md_subject := Some "";
     md_keywords := Some [];
     md_producer := Some "ActuallyRedactPDF - True Redaction";
     md_creator := Some "ActuallyRedactPDF";
     md_creationDate := Some now; md_modificationDate := Some now |}.

(** ** Sample documents *)

(** A text item drawn upright at [(x, y)] of the PDF coordinate system (the
    origin at the bottom left). *)
Definition text_item (s : string) (x y w h : Q) : TextItem.t :=
  {| TextItem.str := s;
     TextItem.transform := Transform.mk 1 0 0 1 x y;
     TextItem.width := w;
     TextItem.height := h |}.

(** A US Letter page holding these text items. *)
Definition letter_page (items : list TextItem.t) (renders : bool) : Page :=
  {| pg_width := 612; pg_height := 792;
     pg_content := map TextObject items;
     pg_renders := renders |}.

Definition sample_info : Metadata :=
  {| md_title := Some "Payroll"; md_author := Some "J. Smith";
     md_subject := Some "Q3"; md_keywords := Some ["salary"; "private"];
     md_producer := Some "Writer"; md_creator := Some "Writer";
     md_creationDate := Some 1000%Z; md_modificationDate := Some 2000%Z |}.

(** Two pages: an SSN on the first, nothing sensitive on the second. *)
Definition doc_ssn : PdfFile :=
  {| pdf_pages :=
       [ letter_page [text_item "SSN: 123-45-6789" 72 720 96 12] true;
         letter_page [text_item "Nothing to hide" 72 720 90 12] true ];
     pdf_info := sample_info |}.

(** The box of the first run of [doc_ssn], as the locators report it. *)
Definition area_ssn : RedactionArea.t :=
  {| RedactionArea.pageIndex := 0;
     RedactionArea.x := 72; RedactionArea.y := 60;
     RedactionArea.width := 96; RedactionArea.height := 16 |}.

(** A region on a page that [doc_ssn] does not have. *)
Definition area_beyond : RedactionArea.t :=
  {| RedactionArea.pageIndex := 5;
     RedactionArea.x := 10; RedactionArea.y := 10;
     RedactionArea.width := 50; RedactionArea.height := 20 |}.

(** What the renderer makes of [doc_ssn] and [area_ssn] at time 0. *)
Definition doc_ssn_redacted : PdfFile :=
  {| pdf_pages := flatten_pages [area_ssn] default_renderScale 0 (pdf_pages doc_ssn);
     pdf_info := redacted_info 0 |}.

(** As [doc_ssn], but the second page cannot be rasterized. *)
Definition doc_broken : PdfFile :=
  {| pdf_pages :=
       [ letter_page [text_item "SSN: 123-45-6789" 72 720 96 12] true;
         letter_page [text_item "Nothing to hide" 72 720 90 12] false ];
     pdf_info := sample_info |}.

(** An SSN split over two adjacent runs. *)
Definition doc_split : PdfFile :=
  {| pdf_pages :=
       [ letter_page [text_item "123-45" 72 720 40 12;
                      text_item "6789" 120 720 30 12] true ];
     pdf_info := sample_info |}.

(** A word split over two adjacent runs. *)
Definition doc_conf : PdfFile :=
  {| pdf_pages :=
       [ letter_page [text_item "CONF" 72 720 40 12;
                      text_item "IDENTIAL" 112 720 60 12] true ];
     pdf_info := sample_info |}.

(** ** The text runs the verifier reads *)

(** A positioned text run: the origin is measured from the top left of the
    page. *)
Record TextRun : Type := mkRun {
  run_text : string;
  run_x : Q;
  run_y : Q;
  run_width : Q;
  run_height : Q
}.

(** The run of a text item on a page of height [pageHeight]; an unknown
    width counts as 0 and an unknown height as 12. *)
Definition run_of_item (pageHeight : Q) (textItem : TextItem.t) : TextRun :=
  {| run_text := TextItem.str textItem;
     run_x := Transform.t4 (TextItem.transform textItem);
     run_y := (pageHeight - Transform.t5 (TextItem.transform textItem))%Q;
     run_width := num_or (TextItem.width textItem) 0;
     run_height := num_or (TextItem.height textItem) 12 |}.

Definition extract_runs (page : Page) : list TextRun :=
  omap (fun item => match item with
                    | TextI textItem =>
                        Some (run_of_item (vp_height (getViewport page 1)) textItem)
                    | MarkedI => None
                    end) (getTextContent page).

(** The rectangle intersection test, as the specification words it. *)
Definition run_overlaps (region : RedactionArea.t) (run : TextRun) : Prop :=
  (run_x run < RedactionArea.x region + RedactionArea.width region
   /\ run_x run + run_width run > RedactionArea.x region
   /\ run_y run < RedactionArea.y region + RedactionArea.height region
   /\ run_y run + run_height run > RedactionArea.y region)%Q.

Global Instance Qlt_decision (x y : Q) : Decision (x < y)%Q :=
  match Qlt_le_dec x y with
  | left H => left H
  | right H => right (Qle_not_lt _ _ H)
  end.

Global Instance run_overlaps_decision region run : Decision (run_overlaps region run).
Proof. unfold run_overlaps. apply _. Defined.

(** The texts of the runs of the region's page that overlap the region, in
    stream order; none when the document has no such page. *)
Definition overlapping_texts (doc : PdfFile) (region : RedactionArea.t)
  : list string :=
  match pdf_pages doc !! RedactionArea.pageIndex region with
  | Some page => map run_text (filter (run_overlaps region) (extract_runs page))
  | None => []
  end.

(** ** What the sanitizer produces *)

Definition sanitized_info (created modified : Z) : Metadata :=
  {| md_title := Some ""; md_author := Some ""; md_subject := Some "";
     md_keywords := Some [];
     md_producer := Some "ActuallyRedactPDF - Sanitized";
     md_creator := Some "ActuallyRedactPDF";
     md_creationDate := Some created; md_modificationDate := Some modified |}.

Definition sanitized (created modified : Z) (doc : PdfFile) : PdfFile :=
  {| pdf_pages := pdf_pages doc; pdf_info := sanitized_info created modified |}.

(** ** What the pattern locator produces *)

(** The matches the [while] loop goes through, collected. *)
Fixpoint matches_from (fuel : nat) (r : Regex) (text : string) (lastIndex : nat)
  : result (list (nat * string)) :=
  match fuel with
  | O => Err NoTermination
  | S fuel' =>
      match exec r text lastIndex with
      | None => Ok []
      | Some m =>
          let* rest :=
            matches_from fuel' r text (fst m + String.length (snd m)) in
          Ok (m :: rest)
      end
  end.

Definition all_matches (r : Regex) (text : string) : list (nat * string) :=
  match matches_from (String.length text + 2) r text 0 with
  | Ok ms => ms
  | Err _ => []
  end.

(** The matches of one pattern on one page. *)
Definition page_pattern_matches (pageNum : nat) (page : Page)
    (patternType : PatternType) : list PatternMatch.t :=
  let '(fullText, positionMap) := build_fullText (getTextContent page) in
  foldl (add_match pageNum (getViewport page 1) positionMap patternType) []
        (all_matches (PATTERNS patternType) fullText).

(** The matches of the patterns of [patternTypes] on the pages [pages],
    numbered from [pageNum]: page after page, and on each page pattern after
    pattern in the order of [patternTypes]. *)
Fixpoint detect_pages (patternTypes : list PatternType) (pageNum : nat)
    (pages : list Page) : list PatternMatch.t :=
  match pages with
  | [] => []
  | page :: rest =>
      flat_map (page_pattern_matches pageNum page) patternTypes
      ++ detect_pages patternTypes (S pageNum) rest
  end.

(** The matches of one category in a list of matches. *)
Definition of_type (c : PatternType) (matches : list PatternMatch.t)
  : list PatternMatch.t :=
  filter (fun m => PatternMatch.patternType m = c) matches.

(** ** The union of the runs of a match, as the specification words it *)

Record Box : Type := mkBox { box_x : Q; box_y : Q; box_width : Q; box_height : Q }.

(** The box the locators give to one text item. *)
Definition item_box (pageHeight : Q) (textItem : TextItem.t) : Box :=
  {| box_x := Transform.t4 (TextItem.transform textItem);
     box_y := (pageHeight - Transform.t5 (TextItem.transform textItem)
               - num_or (TextItem.height textItem) 12)%Q;
     box_width := num_or (TextItem.width textItem) 100;
     box_height := (num_or (TextItem.height textItem) 12 + 4)%Q |}.

(** The least box that holds two boxes. *)
Definition box_union (a b : Box) : Box :=
  let x := Qmin (box_x a) (box_x b) in
  let y := Qmin (box_y a) (box_y b) in
  {| box_x := x; box_y := y;
     box_width := (Qmax (box_x a + box_width a) (box_x b + box_width b) - x)%Q;
     box_height := (Qmax (box_y a + box_height a) (box_y b + box_height b) - y)%Q |}.

(** The runs whose range [[start, end)] overlaps [[matchStart, matchEnd)]. *)
Definition overlapping_positions (positionMap : list Position)
    (matchStart matchEnd : nat) : list Position :=
  List.filter (fun pos => (pos_start pos <? matchEnd)
                          && (matchStart <? pos_end pos)) positionMap.

(** One box for the match: the union of the boxes of all these runs. *)
Definition span_union (pageHeight : Q) (positionMap : list Position)
    (matchStart matchEnd : nat) : option Box :=
  match overlapping_positions positionMap matchStart matchEnd with
  | [] => None
  | pos :: rest =>
      Some (fold_left (fun b p => box_union b (item_box pageHeight (pos_item p)))
                      rest (item_box pageHeight (pos_item pos)))
  end.

(** One page with an SSN-shaped and an e-mail-shaped run. *)
Definition doc_mixed : PdfFile :=
  {| pdf_pages :=
       [ letter_page [text_item "555-12-3456" 72 720 66 12;
                      text_item "a@b.com" 72 700 42 12] true ];
     pdf_info := sample_info |}.

(** * The rest of the library and its callers *)

From Stdlib Require DecimalString.

(** ** Literal search as redaction areas *)


(** ** What the literal locator produces *)

(** Whether a text item is a hit for the (already case-folded) term. *)
Definition item_hit (searchTermLower : string) (caseSensitive : bool)
    (textItem : TextItem.t) : bool :=
  includes (if caseSensitive then TextItem.str textItem
            else toLowerCase (TextItem.str textItem)) searchTermLower.

(** The match reported for a text item that is a hit. *)
Definition match_of_item (pageNum : nat) (viewport : Viewport)
    (textItem : TextItem.t) : TextMatch.t :=
  {| TextMatch.pageIndex := pageNum - 1;
     TextMatch.text := TextItem.str textItem;
     TextMatch.x := Transform.t4 (TextItem.transform textItem);
     TextMatch.y := (vp_height viewport
                     - Transform.t5 (TextItem.transform textItem)
                     - num_or (TextItem.height textItem) 12)%Q;
     TextMatch.width := num_or (TextItem.width textItem) 100;
     TextMatch.height := (num_or (TextItem.height textItem) 12 + 4)%Q |}.

(** The text items of a page, in stream order. *)
Definition text_items (page : Page) : list TextItem.t :=
  omap (fun item => match item with
                    | TextI textItem => Some textItem
                    | MarkedI => None
                    end) (getTextContent page).

Definition find_on_page (searchTermLower : string) (caseSensitive : bool)
    (pageNum : nat) (page : Page) : list TextMatch.t :=
  map (match_of_item pageNum (getViewport page 1))
      (List.filter (item_hit searchTermLower caseSensitive) (text_items page)).

Fixpoint find_pages (searchTermLower : string) (caseSensitive : bool)
    (pageNum : nat) (pages : list Page) : list TextMatch.t :=
  match pages with
  | [] => []
  | page :: rest =>
      find_on_page searchTermLower caseSensitive pageNum page
      ++ find_pages searchTermLower caseSensitive (S pageNum) rest
  end.

(** ** What has been painted *)

(** The rectangles filled on the images of a page. *)
Definition masks_of_page (page : Page) : list CanvasOp :=
  flat_map (fun o => match o with
                     | ImageObject (Png _ _ paint) _ _ _ _ =>
                         List.filter (fun op => match op with
                                                | FillRect _ _ _ _ _ => true
                                                | RenderPage _ _ _ => false
                                                end) paint
                     | _ => []
                     end) (pg_content page).

(** ** Document information *)

(** [String.prototype.trim] on Latin-1: the white space and line
    terminators at both ends are removed. *)
Fixpoint trimStart (s : string) : string :=
  match s with
  | EmptyString => EmptyString
  | String c rest => if is_space c then trimStart rest else s
  end.

Fixpoint trimEnd (s : string) : string :=
  match s with
  | EmptyString => EmptyString
  | String c rest =>
      match trimEnd rest with
      | EmptyString => if is_space c then EmptyString else String c EmptyString
      | rest' => String c rest'
      end
  end.

Definition trim (s : string) : string := trimEnd (trimStart s).

(** A string is truthy when it is not empty. *)
Definition truthy (s : string) : bool :=
  match s with
  | EmptyString => false
  | String _ _ => true
  end.

(** [pdfDoc.getKeywords()]: pdf-lib keeps the keywords joined by spaces. *)
Definition getKeywords (doc : PdfFile) : option string :=
  String.concat " " <$> md_keywords (pdf_info doc).

Record PdfInfo : Type := mkPdfInfo {
  pageCount : nat;
  title : option string;
  author : option string;
  hasMetadata : bool;
  hasExtractableText : bool;
  textSample : string
}.

(** [title || author || pdfDoc.getSubject() || pdfDoc.getKeywords()?.length],
    made a boolean by [!!]. *)
Definition has_metadata (doc : PdfFile) : bool :=
  let truthy_opt (o : option string) :=
    match o with Some s => truthy s | None => false end in
  truthy_opt (md_title (pdf_info doc))
  || truthy_opt (md_author (pdf_info doc))
  || truthy_opt (md_subject (pdf_info doc))
  || match getKeywords doc with
     | Some s => negb (String.length s =? 0)
     | None => false
     end.

(** The loop of [getPdfInfo] over the items of the first page; it breaks
    once the sample is longer than 200. *)
Fixpoint sample_items (items : list Item) (st : bool * string) : bool * string :=
  match items with
  | [] => st
  | MarkedI :: rest => sample_items rest st
  | TextI textItem :: rest =>
      if truthy (trim (TextItem.str textItem)) then
        let textSample := (snd st ++ (TextItem.str textItem ++ " "))%string in
        if 200 <? String.length textSample then (true, textSample)
        else sample_items rest (true, textSample)
      else sample_items rest st
  end.

Definition getPdfInfo (pdfBytes : ArrayBuffer) : result PdfInfo :=
  let* pdfDoc := PDFDocument.load pdfBytes in
  let* pdfJsDoc := getDocument pdfBytes in
  let title := md_title (pdf_info pdfDoc) in
  let author := md_author (pdf_info pdfDoc) in
  let hasMetadata := has_metadata pdfDoc in
  let* st :=
    if 0 <? numPages pdfJsDoc then
      let* page := getPage pdfJsDoc 1 in
      let textContent := getTextContent page in
      Ok (sample_items textContent (false, EmptyString))
    else Ok (false, EmptyString) in
  Ok {| pageCount := length (pdf_pages pdfDoc);
        title := title;
        author := author;
        hasMetadata := hasMetadata;
        hasExtractableText := fst st;
        textSample := String.substring 0 200 (trim (snd st)) |}.

(** ** Boxes with an extent *)



(** A page with one run of known extent, and a document made of it. *)
Definition page_conf : Page :=
  letter_page [text_item "Confidential memo" 72 720 110 12] true.


(** Whether an item is a text item with something else than white space. *)
Definition item_nonblank (item : Item) : bool :=
  match item with
  | TextI textItem => truthy (trim (TextItem.str textItem))
  | MarkedI => false
  end.

(** ** Bounds on what a pattern matches *)

(** The greatest length of a match, when there is one. *)
Fixpoint max_length (r : Regex) : option nat :=
  match r with
  | WordBoundary => Some 0
  | CharSet _ => Some 1
  | Cat r1 r2 =>
      match max_length r1, max_length r2 with
      | Some a, Some b => Some (a + b)
      | _, _ => None
      end
  | Opt r1 => max_length r1
  | AtLeast _ _ => None
  | Times n r1 =>
      match max_length r1 with
      | Some a => Some (n * a)
      | None => None
      end
  end.

(** The lengths a match of each category can have. *)
Definition length_in_window (patternType : PatternType) (n : nat) : Prop :=
  match patternType with
  | ssn => 9 <= n <= 11
  | email => 6 <= n
  | phone => 7 <= n <= 17
  | credit_card => 16 <= n <= 19
  end.

(** ** The layout of [positionMap] *)

(** The ranges of [positionMap] follow one another from [from] to [to]: each
    starts where the text of its item starts and ends on the separator
    after it, and the next one starts right after that separator. *)
Fixpoint tiles (from : nat) (positionMap : list Position) (to : nat) : Prop :=
  match positionMap with
  | [] => from = to
  | pos :: rest =>
      pos_start pos = from
      /\ pos_end pos = from + String.length (TextItem.str (pos_item pos))
      /\ tiles (S (pos_end pos)) rest to
  end.

(** The match reported for a regex match attributed to the run [pos]. *)
Definition pattern_match_of (pageNum : nat) (viewport : Viewport)
    (patternType : PatternType) (m : nat * string) (pos : Position)
  : PatternMatch.t :=
  {| PatternMatch.pageIndex := pageNum - 1;
     PatternMatch.text := snd m;
     PatternMatch.pattern := snd m;
     PatternMatch.patternType := patternType;
     PatternMatch.x := Transform.t4 (TextItem.transform (pos_item pos));
     PatternMatch.y :=
       (vp_height viewport - Transform.t5 (TextItem.transform (pos_item pos))
        - num_or (TextItem.height (pos_item pos)) 12)%Q;
     PatternMatch.width := num_or (TextItem.width (pos_item pos)) 100;
     PatternMatch.height := (num_or (TextItem.height (pos_item pos)) 12 + 4)%Q |}.

(** The text of a page as the pattern locator builds it. *)
Definition page_text (page : Page) : string :=
  fst (build_fullText (getTextContent page)).

(** The box of a pattern match. *)
Definition box_of_match (m : PatternMatch.t) : Box :=
  {| box_x := PatternMatch.x m; box_y := PatternMatch.y m;
     box_width := PatternMatch.width m; box_height := PatternMatch.height m |}.

(** * The callers: the editor and the batch processor *)

(** ** A JavaScript [Set] of pattern categories

    A [Set] keeps its elements in insertion order and holds none twice; it
    is modelled by the list that [Array.from] makes of it. *)

Module JsSet.

Definition has (x : PatternType) (s : list PatternType) : bool :=
  bool_decide (x ∈ s).

Definition add (x : PatternType) (s : list PatternType) : list PatternType :=
  if has x s then s else s ++ [x].

Definition delete (x : PatternType) (s : list PatternType) : list PatternType :=
  filter (fun y => y <> x) s.

(** [new Set(iterable)] *)
Definition of_iterable (l : list PatternType) : list PatternType :=
  foldl (fun s x => add x s) [] l.

End JsSet.

(** The initial value of [selectedPatterns]. *)
Definition initial_selectedPatterns : list PatternType :=
  JsSet.of_iterable [ssn; email; phone; credit_card].

Definition togglePattern (pattern : PatternType)
    (selectedPatterns : list PatternType) : list PatternType :=
  let newPatterns := JsSet.of_iterable selectedPatterns in
  if JsSet.has pattern newPatterns
  then JsSet.delete pattern newPatterns
  else JsSet.add pattern newPatterns.

(** The selection after a sequence of clicks on the category buttons. *)
Definition selected_after (clicks : list PatternType) : list PatternType :=
  foldl (fun s p => togglePattern p s) initial_selectedPatterns clicks.



(** ** File names *)

(** [s.replace(pattern, replacement)] for a string pattern: the first
    occurrence is replaced ([replacement] holds no [$]). *)
Fixpoint replace_first (pattern replacement s : string) : string :=
  if String.prefix pattern s
  then (replacement
        ++ String.substring (String.length pattern)
                            (String.length s - String.length pattern) s)%string
  else match s with
       | EmptyString => EmptyString
       | String c rest => String c (replace_first pattern replacement rest)
       end.

(** [name.replace('.pdf', '-redacted.pdf')] *)
Definition redacted_name (name : string) : string :=
  replace_first ".pdf" "-redacted.pdf" name.

(** [pdfFile?.name.replace('.pdf', '-redacted.pdf') || 'redacted.pdf'] *)
Definition download_name (pdfFile : option string) : string :=
  match pdfFile with
  | Some name => if truthy (redacted_name name) then redacted_name name
                 else "redacted.pdf"
  | None => "redacted.pdf"
  end.

(** ** The editor *)

Module Source.
Inductive t : Type := manual | search | pattern.
End Source.

Module RedactionBox.
Record t : Type := mk {
  id : string;
  pageIndex : nat;
  x : Q;
  y : Q;
  width : Q;
  height : Q;
  source : option Source.t;
  label : option string
}.
End RedactionBox.







(** ** The batch processor

    The bytes of a file are a value: the buffer is taken to stay readable
    from one call to the next. *)

Module Status.
Inductive t : Type :=
  | pending | scanning | scanned | processing | done | error.
End Status.

Global Instance Status_eq_dec : EqDecision Status.t.
Proof. solve_decision. Defined.

Module BatchFile.
Record t : Type := mk {
  id : string;
  name : string;                    (* file.name *)
  bytes : ArrayBuffer;
  pageCount : nat;
  status : Status.t;
  patterns : list PatternMatch.t;
  error : option string
}.
End BatchFile.

(** [prev.map(f => f.id === id ? {...f, status, patterns, error} : f)], the
    update used by every [setFiles] of the batch processor; a field that the
    update does not mention is given as [None]. *)
Definition update_file (id : string) (status : Status.t)
    (patterns : option (list PatternMatch.t)) (error : option string)
    (files : list BatchFile.t) : list BatchFile.t :=
  map (fun f =>
         if String.eqb (BatchFile.id f) id then
           {| BatchFile.id := BatchFile.id f;
              BatchFile.name := BatchFile.name f;
              BatchFile.bytes := BatchFile.bytes f;
              BatchFile.pageCount := BatchFile.pageCount f;
              BatchFile.status := status;
              BatchFile.patterns := default (BatchFile.patterns f) patterns;
              BatchFile.error :=
                match error with Some e => Some e | None => BatchFile.error f end |}
         else f) files.

Module Batch.
Record t : Type := mk {
  files : list BatchFile.t;
  selectedPatterns : list PatternType;
  processedFiles : list (string * ArrayBuffer)
}.
End Batch.

(** One turn of the loop of [scanAllFiles]. *)
Definition scan_file (patterns : list PatternType) (files : list BatchFile.t)
    (file : BatchFile.t) : list BatchFile.t :=
  let files := update_file (BatchFile.id file) Status.scanning None None files in
  match detectSensitivePatterns (BatchFile.bytes file) patterns with
  | Ok matches => update_file (BatchFile.id file) Status.scanned (Some matches) None files
  | Err _ => update_file (BatchFile.id file) Status.error None (Some "Scan failed") files
  end.

Definition scanAllFiles (st : Batch.t) : Batch.t :=
  if (length (Batch.files st) =? 0) || (length (Batch.selectedPatterns st) =? 0)
  then st
  else
    let patterns := Batch.selectedPatterns st in
    {| Batch.files := foldl (scan_file patterns) (Batch.files st) (Batch.files st);
       Batch.selectedPatterns := Batch.selectedPatterns st;
       Batch.processedFiles := Batch.processedFiles st |}.

(** Whether [processAllFiles] takes a file:
    [f.status === 'scanned' && f.patterns.length > 0]. *)
Definition to_process (f : BatchFile.t) : bool :=
  bool_decide (BatchFile.status f = Status.scanned)
  && (0 <? length (BatchFile.patterns f)).

(** One turn of the loop of [processAllFiles]; the state of the loop is the
    list of files, the results and the number of the turn, which gives the
    clock reading [times k] of the turn. *)
Definition process_file (times : nat -> Z)
    (st : list BatchFile.t * list (string * ArrayBuffer) * nat)
    (file : BatchFile.t)
  : list BatchFile.t * list (string * ArrayBuffer) * nat :=
  let '(files, results, k) := st in
  let files := update_file (BatchFile.id file) Status.processing None None files in
  let redactionAreas := patternMatchesToRedactions (BatchFile.patterns file) in
  match redactPdfByAreas (times k) (BatchFile.bytes file) redactionAreas
                         default_renderScale with
  | Ok redactedPdf =>
      (update_file (BatchFile.id file) Status.done None None files,
       results ++ [(redacted_name (BatchFile.name file), redactedPdf)],
       S k)
  | Err _ =>
      (update_file (BatchFile.id file) Status.error None (Some "Redaction failed") files,
       results, S k)
  end.

Definition processAllFiles (times : nat -> Z) (st : Batch.t) : Batch.t :=
  let filesToProcess := List.filter to_process (Batch.files st) in
  if length filesToProcess =? 0 then st
  else
    let '(files', results, _) :=
      foldl (process_file times) (Batch.files st, [], 0) filesToProcess in
    {| Batch.files := files';
       Batch.selectedPatterns := Batch.selectedPatterns st;
       Batch.processedFiles := results |}.

(** [totalPatterns]: [files.reduce((sum, f) => sum + f.patterns.length, 0)] *)
Definition totalPatterns (fs : list BatchFile.t) : nat :=
  foldl (fun sum f => sum + length (BatchFile.patterns f)) 0 fs.


(** A batch of two scanned files; the second cannot be rasterized. *)
Definition file_ok : BatchFile.t :=
  {| BatchFile.id := "a"; BatchFile.name := "payroll.pdf";
     BatchFile.bytes := PdfData doc_mixed; BatchFile.pageCount := 1;
     BatchFile.status := Status.scanned;
     BatchFile.patterns := detect_pages all_patternTypes 1 (pdf_pages doc_mixed);
     BatchFile.error := None |}.

Definition file_broken : BatchFile.t :=
  {| BatchFile.id := "b"; BatchFile.name := "broken.pdf";
     BatchFile.bytes := PdfData doc_broken; BatchFile.pageCount := 2;
     BatchFile.status := Status.scanned;
     BatchFile.patterns := detect_pages all_patternTypes 1 (pdf_pages doc_broken);
     BatchFile.error := None |}.

Definition batch_two : Batch.t :=
  {| Batch.files := [file_broken; file_ok];
     Batch.selectedPatterns := all_patternTypes;
     Batch.processedFiles := [] |}.



(** Two files just dropped, the second of which does not parse. *)
Definition batch_dropped : Batch.t :=
  {| Batch.files :=
       [ {| BatchFile.id := "a"; BatchFile.name := "payroll.pdf";
            BatchFile.bytes := PdfData doc_mixed; BatchFile.pageCount := 1;
            BatchFile.status := Status.pending; BatchFile.patterns := [];
            BatchFile.error := None |};
         {| BatchFile.id := "b"; BatchFile.name := "noise.pdf";
            BatchFile.bytes := Garbage; BatchFile.pageCount := 0;
            BatchFile.status := Status.pending; BatchFile.patterns := [];
            BatchFile.error := None |} ];
     Batch.selectedPatterns := [email];
     Batch.processedFiles := [] |}.
(** * Properties *)

(** ** JavaScript numbers *)

Lemma num_ltb_lt (x y : Q) : num_ltb x y = true <-> (x < y)%Q.
Proof.
  unfold num_ltb. rewrite negb_true_iff. split.
  - intros H. apply Qnot_le_lt. intros Hle.
    apply Qle_bool_iff in Hle. congruence.
  - intros H. destruct (Qle_bool y x) eqn:E; [|reflexivity].
    apply Qle_bool_iff in E. exfalso. exact (Qlt_not_le _ _ H E).
Qed.

Lemma Qmult_1_r_eq (x : Q) : (x * 1)%Q = x.
Proof.
  destruct x as [n d]. unfold Qmult. cbn [Qnum Qden].
  rewrite Z.mul_1_r, Pos.mul_1_r. reflexivity.
Qed.

(** ** The result monad and loops *)

Lemma for_of_app {A St : Type} (xs ys : list A) (body : St -> A -> result St)
    (s : St) :
  for_of (xs ++ ys) body s = let* s' := for_of xs body s in for_of ys body s'.
Proof.
  revert s. induction xs as [|x xs IH]; intros s; cbn; [reflexivity|].
  destruct (body s x); cbn; [apply IH | reflexivity].
Qed.

Lemma for_of_ext {A St : Type} (xs : list A) (f g : St -> A -> result St) (s : St) :
  (forall x s', In x xs -> f s' x = g s' x) ->
  for_of xs f s = for_of xs g s.
Proof.
  revert s. induction xs as [|x xs IH]; intros s H; cbn; [reflexivity|].
  rewrite (H x s) by (left; reflexivity).
  destruct (g s x); cbn; [|reflexivity].
  apply IH. intros y s' Hy. apply H. right. exact Hy.
Qed.

(** ** Grouping by page *)


Lemma group_area_fold (areas : list RedactionArea.t)
    (m : gmap nat (list RedactionArea.t)) (i : nat) :
  default [] (foldl group_area m areas !! i)
  = default [] (m !! i) ++ on_page i areas.
Proof.
  revert m. induction areas as [|a areas IH]; intros m; cbn [foldl].
  - unfold on_page. rewrite filter_nil, app_nil_r. reflexivity.
  - rewrite IH. unfold group_area, on_page.
    destruct (decide (RedactionArea.pageIndex a = i)) as [E|E].
    + rewrite filter_cons_True by exact E. subst i.
      rewrite lookup_insert_eq. cbn. rewrite <- app_assoc. reflexivity.
    + rewrite filter_cons_False by exact E.
      rewrite lookup_insert_ne by exact E. reflexivity.
Qed.

Lemma redactionsByPage_lookup (areas : list RedactionArea.t) (i : nat) :
  default [] (redactionsByPage areas !! i) = on_page i areas.
Proof.
  unfold redactionsByPage. rewrite group_area_fold.
  rewrite lookup_empty. reflexivity.
Qed.

(** ** One page through the renderer *)


Lemma paint_area_fold (renderScale : Q) (areas : list RedactionArea.t)
    (c : Canvas.t) :
  foldl (paint_area renderScale) c areas
  = {| Canvas.width := Canvas.width c; Canvas.height := Canvas.height c;
       Canvas.fillStyle := Canvas.fillStyle c;
       Canvas.paint :=
         Canvas.paint c
         ++ map (fun a => FillRect (Canvas.fillStyle c)
                            (RedactionArea.x a * renderScale)%Q
                            (RedactionArea.y a * renderScale)%Q
                            (RedactionArea.width a * renderScale)%Q
                            (RedactionArea.height a * renderScale)%Q) areas |}.
Proof.
  revert c. induction areas as [|a areas IH]; intros c; cbn.
  - rewrite app_nil_r. destruct c; reflexivity.
  - rewrite IH. cbn. rewrite <- app_assoc. reflexivity.
Qed.

Lemma redact_page_eq (doc : PdfFile) (areas : list RedactionArea.t)
    (renderScale : Q) (acc : PdfFile) (i : nat) (p : Page) :
  pdf_pages doc !! i = Some p ->
  redact_page doc (redactionsByPage areas) renderScale acc (S i)
  = if pg_renders p
    then Ok {| pdf_pages := pdf_pages acc ++ [flattened areas renderScale i p];
               pdf_info := pdf_info acc |}
    else Err (RenderFailure (S i)).
Proof.
  intros Hp. unfold redact_page, getPage. rewrite Hp. cbn [bind].
  unfold Canvas.render. cbn. destruct (pg_renders p); cbn [bind]; [|reflexivity].
  rewrite paint_area_fold. cbn. rewrite Nat.sub_0_r.
  rewrite redactionsByPage_lookup. reflexivity.
Qed.

Lemma flatten_pages_length areas renderScale i pages :
  length (flatten_pages areas renderScale i pages) = length pages.
Proof.
  revert i. induction pages as [|p ps IH]; intros i; cbn; [reflexivity|].
  rewrite IH. reflexivity.
Qed.

Lemma flatten_pages_lookup areas renderScale k pages j :
  flatten_pages areas renderScale k pages !! j
  = flattened areas renderScale (k + j) <$> pages !! j.
Proof.
  revert k j. induction pages as [|p ps IH]; intros k j; [reflexivity|].
  destruct j as [|j]; cbn.
  - rewrite Nat.add_0_r. reflexivity.
  - rewrite IH. rewrite Nat.add_succ_r. reflexivity.
Qed.

(** ** The page loop *)

Lemma drop_lookup_head {A : Type} (l : list A) (k : nat) (x : A) (rest : list A) :
  drop k l = x :: rest -> l !! k = Some x /\ drop (S k) l = rest.
Proof.
  revert k. induction l as [|y l IH]; intros k H.
  - rewrite drop_nil in H. discriminate.
  - destruct k as [|k]; cbn in *.
    + injection H as -> ->. split; [reflexivity|]. apply drop_0.
    + apply IH. exact H.
Qed.

Lemma redact_loop_ok (doc : PdfFile) (areas : list RedactionArea.t)
    (renderScale : Q) (ps : list Page) :
  forall (k : nat) (acc : PdfFile),
  drop k (pdf_pages doc) = ps ->
  Forall (fun p => pg_renders p = true) ps ->
  for_of (seq (S k) (length ps))
         (redact_page doc (redactionsByPage areas) renderScale) acc
  = Ok {| pdf_pages := pdf_pages acc ++ flatten_pages areas renderScale k ps;
          pdf_info := pdf_info acc |}.
Proof.
  induction ps as [|p ps IH]; intros k acc Hdrop Hall; cbn.
  - rewrite app_nil_r. destruct acc; reflexivity.
  - apply drop_lookup_head in Hdrop as [Hp Hrest].
    inversion Hall as [|? ? Hr Hall']; subst.
    rewrite (redact_page_eq _ _ _ _ _ _ Hp), Hr. cbn [bind].
    rewrite (IH (S k) _ eq_refl Hall'). cbn.
    rewrite <- app_assoc. reflexivity.
Qed.

Lemma redact_loop_fail (doc : PdfFile) (areas : list RedactionArea.t)
    (renderScale : Q) (ps : list Page) :
  forall (k : nat) (acc : PdfFile),
  drop k (pdf_pages doc) = ps ->
  Exists (fun p => pg_renders p = false) ps ->
  exists j q, ps !! j = Some q /\ pg_renders q = false /\
    Forall (fun p => pg_renders p = true) (take j ps) /\
    for_of (seq (S k) (length ps))
           (redact_page doc (redactionsByPage areas) renderScale) acc
    = Err (RenderFailure (S (k + j))).
Proof.
  induction ps as [|p ps IH]; intros k acc Hdrop Hex.
  - inversion Hex.
  - apply drop_lookup_head in Hdrop as [Hp Hrest]. cbn.
    rewrite (redact_page_eq _ _ _ _ _ _ Hp).
    destruct (pg_renders p) eqn:Hr; cbn [bind].
    + assert (Hex' : Exists (fun p => pg_renders p = false) ps).
      { inversion Hex as [? ? H|? ? H]; subst; [congruence | exact H]. }
      destruct (IH (S k)
                  {| pdf_pages := pdf_pages acc ++ [flattened areas renderScale k p];
                     pdf_info := pdf_info acc |} Hrest Hex')
        as (j & q & Hq & Hqr & Hpre & Hres).
      exists (S j), q. repeat split; try assumption.
      * cbn. constructor; assumption.
      * rewrite Hres. rewrite Nat.add_succ_r. reflexivity.
    + exists 0, p. repeat split; try assumption.
      * cbn. constructor.
      * rewrite Nat.add_0_r. reflexivity.
Qed.


Lemma redactPdfByAreas_ok (now : Z) (doc : PdfFile)
    (areas : list RedactionArea.t) (renderScale : Q) :
  Forall (fun p => pg_renders p = true) (pdf_pages doc) ->
  redactPdfByAreas now (PdfData doc) areas renderScale
  = Ok (PdfData {| pdf_pages := flatten_pages areas renderScale 0 (pdf_pages doc);
                   pdf_info := redacted_info now |}).
Proof.
  intros Hall. unfold redactPdfByAreas. cbn [getDocument bind]. unfold numPages.
  rewrite (redact_loop_ok doc areas renderScale (pdf_pages doc) 0 _ eq_refl Hall).
  reflexivity.
Qed.

Lemma redactPdfByAreas_fail (now : Z) (doc : PdfFile)
    (areas : list RedactionArea.t) (renderScale : Q) :
  Exists (fun p => pg_renders p = false) (pdf_pages doc) ->
  exists j q, pdf_pages doc !! j = Some q /\ pg_renders q = false /\
    Forall (fun p => pg_renders p = true) (take j (pdf_pages doc)) /\
    redactPdfByAreas now (PdfData doc) areas renderScale
    = Err (RenderFailure (S j)).
Proof.
  intros Hex. unfold redactPdfByAreas. cbn [getDocument bind]. unfold numPages.
  destruct (redact_loop_fail doc areas renderScale (pdf_pages doc) 0
              (PDFDocument.create now) eq_refl Hex) as (j & q & Hq & Hr & Hpre & Hres).
  exists j, q. rewrite Hres. cbn. repeat split; assumption.
Qed.

Lemma redactPdfByAreas_inv (now : Z) (pdfBytes out : ArrayBuffer)
    (areas : list RedactionArea.t) (renderScale : Q) :
  redactPdfByAreas now pdfBytes areas renderScale = Ok out ->
  exists doc, pdfBytes = PdfData doc /\
    Forall (fun p => pg_renders p = true) (pdf_pages doc) /\
    out = PdfData {| pdf_pages := flatten_pages areas renderScale 0 (pdf_pages doc);
                     pdf_info := redacted_info now |}.
Proof.
  intros H. destruct pdfBytes as [doc|]; [|discriminate].
  exists doc. split; [reflexivity|].
  assert (Hdec : forall p : Page, {pg_renders p = true} + {pg_renders p = false}).
  { intros p. destruct (pg_renders p); [left|right]; reflexivity. }
  destruct (Forall_Exists_dec _ _ Hdec (pdf_pages doc)) as [Hall|Hex].
  - split; [exact Hall|].
    rewrite (redactPdfByAreas_ok now doc areas renderScale Hall) in H.
    congruence.
  - exfalso.
    destruct (redactPdfByAreas_fail now doc areas renderScale Hex)
      as (j & q & _ & _ & _ & Hres).
    congruence.
Qed.

(** ** The verifier on pages without text *)

Lemma flatten_pages_no_text areas renderScale k pages :
  Forall (fun p => getTextContent p = []) (flatten_pages areas renderScale k pages).
Proof.
  revert k. induction pages as [|p ps IH]; intros k; cbn; constructor.
  - reflexivity.
  - apply IH.
Qed.

Lemma verify_area_no_text (doc : PdfFile) (acc : list string) (area : RedactionArea.t) :
  Forall (fun p => getTextContent p = []) (pdf_pages doc) ->
  verify_area doc acc area = Ok acc.
Proof.
  intros Hall. unfold verify_area.
  destruct (numPages doc <=? RedactionArea.pageIndex area) eqn:E; [reflexivity|].
  unfold getPage. rewrite Nat.add_1_r.
  destruct (pdf_pages doc !! RedactionArea.pageIndex area) as [p|] eqn:Hp; cbn.
  - rewrite Forall_lookup in Hall. rewrite (Hall _ _ Hp). reflexivity.
  - apply lookup_ge_None in Hp. apply Nat.leb_gt in E. unfold numPages in E. lia.
Qed.

Lemma verify_no_text (doc : PdfFile) (areas : list RedactionArea.t) :
  Forall (fun p => getTextContent p = []) (pdf_pages doc) ->
  verifyRedaction (PdfData doc) areas
  = Ok {| success := true; extractedText := [] |}.
Proof.
  intros Hall. unfold verifyRedaction. cbn [getDocument bind].
  assert (H : forall acc, for_of areas (verify_area doc) acc = Ok acc).
  { induction areas as [|a areas IH]; intros acc; cbn; [reflexivity|].
    rewrite (verify_area_no_text doc acc a Hall). cbn. apply IH. }
  rewrite H. reflexivity.
Qed.

(** ** C1: the destruction invariant *)

(** C1.  Whatever the document and the region set, when the renderer
    returns an output, the verifier run on that output with the same
    regions succeeds and finds no text at all. *)
Theorem redact_then_verify (now : Z) (pdfBytes out : ArrayBuffer)
    (areas : list RedactionArea.t) (renderScale : Q) :
  redactPdfByAreas now pdfBytes areas renderScale = Ok out ->
  verifyRedaction out areas = Ok {| success := true; extractedText := [] |}.
Proof.
  intros H. apply redactPdfByAreas_inv in H as (doc & -> & _ & ->).
  apply verify_no_text. cbn. apply flatten_pages_no_text.
Qed.

Lemma redact_then_verify_witness :
  redactPdfByAreas 0 (PdfData doc_ssn) [area_ssn] default_renderScale
  = Ok (PdfData doc_ssn_redacted)
  /\ verifyRedaction (PdfData doc_ssn_redacted) [area_ssn]
     = Ok {| success := true; extractedText := [] |}.
Proof.
  split; [vm_compute; reflexivity|].
  apply (redact_then_verify 0 (PdfData doc_ssn) (PdfData doc_ssn_redacted)
           [area_ssn] default_renderScale).
  vm_compute. reflexivity.
Defined.

(** ** C7: a page that cannot be rasterized *)

(** C7.  If some page of the document fails to render, the renderer returns
    no document: the call fails with the render failure of the first such
    page. *)
Theorem render_failure_aborts (now : Z) (doc : PdfFile)
    (areas : list RedactionArea.t) (renderScale : Q) (i : nat) (p : Page) :
  pdf_pages doc !! i = Some p ->
  pg_renders p = false ->
  exists j q, j <= i /\ pdf_pages doc !! j = Some q /\ pg_renders q = false /\
    redactPdfByAreas now (PdfData doc) areas renderScale
    = Err (RenderFailure (S j)).
Proof.
  intros Hp Hr.
  assert (Hex : Exists (fun p => pg_renders p = false) (pdf_pages doc)).
  { apply Exists_exists. exists p. split; [|exact Hr].
    eapply list_elem_of_lookup_2. exact Hp. }
  destruct (redactPdfByAreas_fail now doc areas renderScale Hex)
    as (j & q & Hq & Hqr & Hpre & Hres).
  exists j, q. repeat split; try assumption.
  destruct (le_lt_dec j i) as [Hle|Hlt]; [exact Hle|]. exfalso.
  rewrite Forall_lookup in Hpre.
  assert (Hi : take j (pdf_pages doc) !! i = Some p).
  { rewrite lookup_take_lt by exact Hlt. exact Hp. }
  specialize (Hpre _ _ Hi). cbn in Hpre. congruence.
Qed.

Lemma render_failure_aborts_witness :
  exists j q, j <= 1 /\ pdf_pages doc_broken !! j = Some q /\ pg_renders q = false /\
    redactPdfByAreas 0 (PdfData doc_broken) [area_ssn] default_renderScale
    = Err (RenderFailure (S j)).
Proof.
  apply (render_failure_aborts 0 doc_broken [area_ssn] default_renderScale 1
           (letter_page [text_item "Nothing to hide" 72 720 90 12] false)).
  - reflexivity.
  - reflexivity.
Defined.

(** ** C8: pages are kept in number, order and size *)

(** C8.  The output has as many pages as the input; its page [i] has the
    width and height of page [i] of the input at scale 1, and holds the
    image rendered from that very page. *)
Theorem pages_kept (now : Z) (doc : PdfFile) (out : ArrayBuffer)
    (areas : list RedactionArea.t) (renderScale : Q) :
  redactPdfByAreas now (PdfData doc) areas renderScale = Ok out ->
  exists outdoc, out = PdfData outdoc /\
    numPages outdoc = numPages doc /\
    forall i p, pdf_pages doc !! i = Some p ->
      exists p', pdf_pages outdoc !! i = Some p' /\
        pg_width p' = pg_width p /\ pg_height p' = pg_height p /\
        pg_width p' = vp_width (getViewport p 1) /\
        pg_height p' = vp_height (getViewport p 1) /\
        pg_content p'
        = [ImageObject (flattened_image areas renderScale i p)
                       0 0 (pg_width p) (pg_height p)].
Proof.
  intros H. apply redactPdfByAreas_inv in H as (doc' & E & _ & ->).
  injection E as <-. eexists. split; [reflexivity|]. split.
  - unfold numPages. cbn. apply flatten_pages_length.
  - intros i p Hp. cbn. rewrite flatten_pages_lookup, Hp. cbn.
    eexists. split; [reflexivity|]. cbn. rewrite !Qmult_1_r_eq.
    repeat split; reflexivity.
Qed.

Lemma pages_kept_witness :
  exists outdoc, PdfData doc_ssn_redacted = PdfData outdoc /\
    numPages outdoc = numPages doc_ssn /\
    forall i p, pdf_pages doc_ssn !! i = Some p ->
      exists p', pdf_pages outdoc !! i = Some p' /\
        pg_width p' = pg_width p /\ pg_height p' = pg_height p /\
        pg_width p' = vp_width (getViewport p 1) /\
        pg_height p' = vp_height (getViewport p 1) /\
        pg_content p'
        = [ImageObject (flattened_image [area_ssn] default_renderScale i p)
                       0 0 (pg_width p) (pg_height p)].
Proof.
  apply (pages_kept 0 doc_ssn (PdfData doc_ssn_redacted) [area_ssn]
           default_renderScale).
  vm_compute. reflexivity.
Defined.

(** ** C9: the renderer clears the metadata itself *)

(** C9.  Every document the renderer returns, for any region set and
    without any call of the sanitizer, has an empty title, author and
    subject, no keywords, and the tool's producer and creator. *)
Theorem redacted_metadata_cleared (now : Z) (pdfBytes out : ArrayBuffer)
    (areas : list RedactionArea.t) (renderScale : Q) :
  redactPdfByAreas now pdfBytes areas renderScale = Ok out ->
  exists outdoc, out = PdfData outdoc /\
    md_title (pdf_info outdoc) = Some "" /\
    md_author (pdf_info outdoc) = Some "" /\
    md_subject (pdf_info outdoc) = Some "" /\
    md_keywords (pdf_info outdoc) = Some [] /\
    md_producer (pdf_info outdoc) = Some "ActuallyRedactPDF - True Redaction" /\
    md_creator (pdf_info outdoc) = Some "ActuallyRedactPDF".
Proof.
  intros H. apply redactPdfByAreas_inv in H as (doc & _ & _ & ->).
  eexists. split; [reflexivity|]. cbn. repeat split; reflexivity.
Qed.

Lemma redacted_metadata_cleared_witness :
  exists outdoc, PdfData
      {| pdf_pages := flatten_pages [] default_renderScale 0 (pdf_pages doc_ssn);
         pdf_info := redacted_info 0 |} = PdfData outdoc /\
    md_title (pdf_info outdoc) = Some "" /\
    md_author (pdf_info outdoc) = Some "" /\
    md_subject (pdf_info outdoc) = Some "" /\
    md_keywords (pdf_info outdoc) = Some [] /\
    md_producer (pdf_info outdoc) = Some "ActuallyRedactPDF - True Redaction" /\
    md_creator (pdf_info outdoc) = Some "ActuallyRedactPDF".
Proof.
  apply (redacted_metadata_cleared 0 (PdfData doc_ssn) _ [] default_renderScale).
  vm_compute. reflexivity.
Defined.

(** ** C10: a region beyond the last page *)

Lemma on_page_skip (i : nat) (a : RedactionArea.t) (R1 R2 : list RedactionArea.t) :
  RedactionArea.pageIndex a <> i ->
  on_page i (R1 ++ a :: R2) = on_page i (R1 ++ R2).
Proof.
  intros Hne. unfold on_page. rewrite !filter_app.
  rewrite filter_cons_False by exact Hne. reflexivity.
Qed.

Lemma verify_area_beyond (doc : PdfFile) (acc : list string) (a : RedactionArea.t) :
  numPages doc <= RedactionArea.pageIndex a ->
  verify_area doc acc a = Ok acc.
Proof.
  intros H. unfold verify_area.
  apply Nat.leb_le in H. rewrite H. reflexivity.
Qed.

(** C10.  A region whose page index is not below the page count changes
    nothing: the renderer returns the same result with the region in the
    list as without it, and the verifier passes over it, with no error and
    no fragment added, so that its report is the same as without it. *)
Theorem region_beyond_last_page (now : Z) (doc verified : PdfFile)
    (a : RedactionArea.t) (R1 R2 : list RedactionArea.t) (renderScale : Q) :
  numPages doc <= RedactionArea.pageIndex a ->
  numPages verified <= RedactionArea.pageIndex a ->
  redactPdfByAreas now (PdfData doc) (R1 ++ a :: R2) renderScale
  = redactPdfByAreas now (PdfData doc) (R1 ++ R2) renderScale
  /\ (forall acc, verify_area verified acc a = Ok acc)
  /\ verifyRedaction (PdfData verified) (R1 ++ a :: R2)
     = verifyRedaction (PdfData verified) (R1 ++ R2).
Proof.
  intros Hdoc Hver. split; [|split].
  - unfold redactPdfByAreas. cbn [getDocument bind].
    rewrite (for_of_ext _ _
               (redact_page doc (redactionsByPage (R1 ++ R2)) renderScale));
      [reflexivity|].
    intros pageNum acc Hin. apply in_seq in Hin.
    destruct pageNum as [|i]; [lia|].
    destruct (pdf_pages doc !! i) as [p|] eqn:Hp.
    + rewrite !(redact_page_eq _ _ _ _ _ _ Hp).
      unfold flattened, flattened_image.
      rewrite on_page_skip; [reflexivity|].
      unfold numPages in *. lia.
    + apply lookup_ge_None in Hp. unfold numPages in *. lia.
  - intros acc. apply verify_area_beyond. exact Hver.
  - unfold verifyRedaction. cbn [getDocument bind].
    rewrite !for_of_app. cbn [for_of].
    destruct (for_of R1 (verify_area verified) []) as [acc|e]; cbn [bind];
      [|reflexivity].
    rewrite (verify_area_beyond _ _ _ Hver). reflexivity.
Qed.

Lemma region_beyond_last_page_witness :
  redactPdfByAreas 0 (PdfData doc_ssn) ([area_ssn] ++ area_beyond :: [])
                   default_renderScale
  = redactPdfByAreas 0 (PdfData doc_ssn) ([area_ssn] ++ []) default_renderScale
  /\ (forall acc, verify_area doc_ssn_redacted acc area_beyond = Ok acc)
  /\ verifyRedaction (PdfData doc_ssn_redacted) ([area_ssn] ++ area_beyond :: [])
     = verifyRedaction (PdfData doc_ssn_redacted) ([area_ssn] ++ []).
Proof.
  apply (region_beyond_last_page 0 doc_ssn doc_ssn_redacted area_beyond
           [area_ssn] [] default_renderScale).
  - vm_compute. lia.
  - vm_compute. lia.
Defined.

(** ** C2: pages without regions *)

(** C2, the claim as stated fails: page 2 of [doc_ssn] owns no region, yet
    the renderer does not carry it through.  Its text run is gone from the
    output, also when the region set is empty. *)
Lemma untouched_page_counterexample :
  redactPdfByAreas 0 (PdfData doc_ssn) [area_ssn] default_renderScale
  = Ok (PdfData doc_ssn_redacted)
  /\ on_page 1 [area_ssn] = []
  /\ getTextContent <$> pdf_pages doc_ssn !! 1
     = Some [TextI (text_item "Nothing to hide" 72 720 90 12)]
  /\ getTextContent <$> pdf_pages doc_ssn_redacted !! 1 = Some []
  /\ (let* out := redactPdfByAreas 0 (PdfData doc_ssn) [] default_renderScale in
      let* outdoc := getDocument out in
      Ok (map getTextContent (pdf_pages outdoc)))
     = Ok [[]; []].
Proof. vm_compute. repeat split; reflexivity. Qed.

(** C2, amended.  A page that owns no region is rasterized like every other
    page: the output page holds only the image of the page rendered at the
    render scale, with no mask painted on it, and no text can be extracted
    from it. *)
Theorem untouched_page_rasterized (now : Z) (doc : PdfFile) (out : ArrayBuffer)
    (areas : list RedactionArea.t) (renderScale : Q) (i : nat) (p : Page) :
  redactPdfByAreas now (PdfData doc) areas renderScale = Ok out ->
  pdf_pages doc !! i = Some p ->
  Forall (fun a => RedactionArea.pageIndex a <> i) areas ->
  exists outdoc p', out = PdfData outdoc /\ pdf_pages outdoc !! i = Some p' /\
    pg_content p'
    = [ImageObject
         (Png (pg_width p * renderScale)%Q (pg_height p * renderScale)%Q
              [RenderPage (pg_content p)
                          (pg_width p * renderScale)%Q
                          (pg_height p * renderScale)%Q])
         0 0 (pg_width p) (pg_height p)] /\
    getTextContent p' = [].
Proof.
  intros H Hp Hnone. apply redactPdfByAreas_inv in H as (doc' & E & _ & ->).
  injection E as <-.
  assert (Hon : on_page i areas = []).
  { unfold on_page. induction Hnone as [|a l Ha _ IH]; [reflexivity|].
    rewrite filter_cons_False by exact Ha. exact IH. }
  exists {| pdf_pages := flatten_pages areas renderScale 0 (pdf_pages doc);
            pdf_info := redacted_info now |}, (flattened areas renderScale i p).
  split; [reflexivity|]. split.
  - cbn [pdf_pages]. rewrite flatten_pages_lookup, Hp. reflexivity.
  - unfold flattened, flattened_image. rewrite Hon.
    cbn [pg_content map]. rewrite !Qmult_1_r_eq. split; reflexivity.
Qed.

Lemma untouched_page_rasterized_witness :
  exists outdoc p', PdfData doc_ssn_redacted = PdfData outdoc /\
    pdf_pages outdoc !! 1 = Some p' /\
    pg_content p'
    = [ImageObject
         (Png (612 * default_renderScale)%Q (792 * default_renderScale)%Q
              [RenderPage
                 [TextObject (text_item "Nothing to hide" 72 720 90 12)]
                 (612 * default_renderScale)%Q (792 * default_renderScale)%Q])
         0 0 612 792] /\
    getTextContent p' = [].
Proof.
  apply (untouched_page_rasterized 0 doc_ssn (PdfData doc_ssn_redacted)
           [area_ssn] default_renderScale 1
           (letter_page [text_item "Nothing to hide" 72 720 90 12] true)).
  - vm_compute. reflexivity.
  - reflexivity.
  - repeat constructor. cbn. lia.
Defined.

(** ** C4: what the verifier reports *)

Lemma item_overlaps_run (pageHeight : Q) (region : RedactionArea.t)
    (textItem : TextItem.t) :
  item_overlaps pageHeight region textItem = true
  <-> run_overlaps region (run_of_item pageHeight textItem).
Proof.
  unfold item_overlaps, run_overlaps. cbn [run_of_item run_x run_y run_width run_height].
  rewrite !andb_true_iff, !num_ltb_lt. unfold Qgt. tauto.
Qed.

Lemma verify_item_fold (pageHeight : Q) (region : RedactionArea.t)
    (items : list Item) (acc : list string) :
  foldl (verify_item pageHeight region) acc items
  = acc ++ map run_text
             (filter (run_overlaps region)
                (omap (fun item => match item with
                                   | TextI textItem =>
                                       Some (run_of_item pageHeight textItem)
                                   | MarkedI => None
                                   end) items)).
Proof.
  revert acc. induction items as [|item items IH]; intros acc.
  - cbn. rewrite app_nil_r. reflexivity.
  - cbn [foldl]. rewrite IH.
    destruct item as [textItem|]; cbn [verify_item omap list_omap];
      [|reflexivity].
    destruct (item_overlaps pageHeight region textItem) eqn:E.
    + apply item_overlaps_run in E.
      rewrite filter_cons_True by exact E. cbn [map run_of_item run_text].
      rewrite <- app_assoc. reflexivity.
    + rewrite filter_cons_False; [reflexivity|].
      intros H. apply item_overlaps_run in H. congruence.
Qed.

Lemma verify_area_eq (doc : PdfFile) (acc : list string) (region : RedactionArea.t) :
  verify_area doc acc region = Ok (acc ++ overlapping_texts doc region).
Proof.
  unfold verify_area, overlapping_texts, getPage, numPages.
  rewrite Nat.add_1_r.
  destruct (length (pdf_pages doc) <=? RedactionArea.pageIndex region) eqn:E.
  - apply Nat.leb_le in E. apply lookup_ge_None_2 in E. rewrite E.
    rewrite app_nil_r. reflexivity.
  - apply Nat.leb_gt in E. apply lookup_lt_is_Some_2 in E as [p Hp].
    rewrite Hp. cbn [bind]. rewrite verify_item_fold. reflexivity.
Qed.

Lemma verify_loop_eq (doc : PdfFile) (areas : list RedactionArea.t) (acc : list string) :
  for_of areas (verify_area doc) acc
  = Ok (acc ++ flat_map (overlapping_texts doc) areas).
Proof.
  revert acc. induction areas as [|a areas IH]; intros acc; cbn [for_of flat_map].
  - rewrite app_nil_r. reflexivity.
  - rewrite verify_area_eq. cbn [bind]. rewrite IH, <- app_assoc. reflexivity.
Qed.

(** C4.  The verifier always returns a report.  Its [extractedText] is the
    list of the texts of all runs that overlap a region, region after
    region, whatever [success] is; and [success] is true exactly when no run
    of a region's page overlaps that region, overlap being the rectangle
    intersection test on the run's box. *)
Theorem verifyRedaction_report (doc : PdfFile) (areas : list RedactionArea.t) :
  exists report,
    verifyRedaction (PdfData doc) areas = Ok report /\
    extractedText report = flat_map (overlapping_texts doc) areas /\
    (success report = true <->
     forall region page run,
       In region areas ->
       pdf_pages doc !! RedactionArea.pageIndex region = Some page ->
       In run (extract_runs page) ->
       ~ run_overlaps region run).
Proof.
  unfold verifyRedaction. cbn [getDocument bind].
  rewrite verify_loop_eq. cbn [bind app].
  eexists. split; [reflexivity|]. cbn [extractedText success].
  split; [reflexivity|].
  rewrite Nat.eqb_eq. split.
  - intros Hlen region page run Hin Hpage Hrun Hov.
    apply length_zero_iff_nil in Hlen.
    assert (Hnil : overlapping_texts doc region = []).
    { destruct (overlapping_texts doc region) as [|t ts] eqn:E; [reflexivity|].
      exfalso.
      assert (Ht : In t (flat_map (overlapping_texts doc) areas)).
      { apply in_flat_map. exists region. split; [exact Hin|].
        rewrite E. left. reflexivity. }
      rewrite Hlen in Ht. exact Ht. }
    unfold overlapping_texts in Hnil. rewrite Hpage in Hnil.
    apply map_eq_nil in Hnil.
    assert (Hmem : run ∈ filter (run_overlaps region) (extract_runs page)).
    { apply list_elem_of_filter. split; [exact Hov|].
      apply list_elem_of_In. exact Hrun. }
    rewrite Hnil in Hmem. inversion Hmem.
  - intros Hnone. apply length_zero_iff_nil.
    induction areas as [|a areas IH]; [reflexivity|]. cbn [flat_map].
    rewrite IH by (intros region page run Hin; apply Hnone; right; exact Hin).
    rewrite app_nil_r. unfold overlapping_texts.
    destruct (pdf_pages doc !! RedactionArea.pageIndex a) as [page|] eqn:Hpage;
      [|reflexivity].
    destruct (filter (run_overlaps a) (extract_runs page)) as [|run rest] eqn:E;
      [reflexivity|].
    exfalso.
    assert (Hmem : run ∈ filter (run_overlaps a) (extract_runs page)).
    { rewrite E. left. }
    apply list_elem_of_filter in Hmem as [Hov Hrun].
    apply list_elem_of_In in Hrun.
    exact (Hnone a page run (or_introl eq_refl) Hpage Hrun Hov).
Qed.

(** ** C5: running the sanitizer twice *)

Lemma sanitizePdf_eq (created modified : Z) (doc : PdfFile) :
  sanitizePdf created modified (PdfData doc)
  = Ok (PdfData (sanitized created modified doc)).
Proof. reflexivity. Qed.

(** C5, the claim as stated fails: a second pass at a later time stamps the
    later time, so the metadata of the second output is not that of the
    first. *)
Lemma sanitize_twice_counterexample :
  sanitizePdf 10 11 (PdfData doc_ssn) = Ok (PdfData (sanitized 10 11 doc_ssn))
  /\ sanitizePdf 20 21 (PdfData (sanitized 10 11 doc_ssn))
     = Ok (PdfData (sanitized 20 21 doc_ssn))
  /\ pdf_info (sanitized 20 21 doc_ssn) <> pdf_info (sanitized 10 11 doc_ssn).
Proof.
  split; [reflexivity|]. split; [reflexivity|].
  cbn. unfold sanitized_info. intros H. discriminate H.
Qed.

(** C5, amended.  A second pass over the output of a first pass succeeds and
    leaves the pages, the empty title, author, subject and keyword list and
    the producer and creator as the first pass left them; only the two dates
    are set anew, to the clock readings of the second pass.  With the same
    clock readings the second output is the first. *)
Theorem sanitize_twice (c1 m1 c2 m2 : Z) (pdfBytes out1 : ArrayBuffer) :
  sanitizePdf c1 m1 pdfBytes = Ok out1 ->
  exists d1 d2,
    out1 = PdfData d1 /\
    sanitizePdf c2 m2 out1 = Ok (PdfData d2) /\
    pdf_pages d2 = pdf_pages d1 /\
    md_title (pdf_info d2) = Some "" /\ md_title (pdf_info d1) = Some "" /\
    md_author (pdf_info d2) = Some "" /\ md_author (pdf_info d1) = Some "" /\
    md_subject (pdf_info d2) = Some "" /\ md_subject (pdf_info d1) = Some "" /\
    md_keywords (pdf_info d2) = Some [] /\ md_keywords (pdf_info d1) = Some [] /\
    md_producer (pdf_info d2) = md_producer (pdf_info d1) /\
    md_creator (pdf_info d2) = md_creator (pdf_info d1) /\
    md_creationDate (pdf_info d2) = Some c2 /\
    md_modificationDate (pdf_info d2) = Some m2 /\
    (c2 = c1 -> m2 = m1 -> d2 = d1).
Proof.
  intros H. destruct pdfBytes as [doc|]; [|discriminate].
  rewrite sanitizePdf_eq in H. injection H as <-.
  exists (sanitized c1 m1 doc), (sanitized c2 m2 (sanitized c1 m1 doc)).
  split; [reflexivity|]. split; [apply sanitizePdf_eq|].
  cbn. repeat split; try reflexivity.
  intros -> ->. reflexivity.
Qed.

Lemma sanitize_twice_witness :
  exists d1 d2,
    PdfData (sanitized 10 11 doc_ssn) = PdfData d1 /\
    sanitizePdf 20 21 (PdfData (sanitized 10 11 doc_ssn)) = Ok (PdfData d2) /\
    pdf_pages d2 = pdf_pages d1 /\
    md_title (pdf_info d2) = Some "" /\ md_title (pdf_info d1) = Some "" /\
    md_author (pdf_info d2) = Some "" /\ md_author (pdf_info d1) = Some "" /\
    md_subject (pdf_info d2) = Some "" /\ md_subject (pdf_info d1) = Some "" /\
    md_keywords (pdf_info d2) = Some [] /\ md_keywords (pdf_info d1) = Some [] /\
    md_producer (pdf_info d2) = md_producer (pdf_info d1) /\
    md_creator (pdf_info d2) = md_creator (pdf_info d1) /\
    md_creationDate (pdf_info d2) = Some 20%Z /\
    md_modificationDate (pdf_info d2) = Some 21%Z /\
    (20%Z = 10%Z -> 21%Z = 11%Z -> d2 = d1).
Proof.
  apply (sanitize_twice 10 11 20 21 (PdfData doc_ssn)
           (PdfData (sanitized 10 11 doc_ssn))).
  reflexivity.
Defined.

(** ** The regular expression matcher *)

Lemma greedy_length (p : ascii -> bool) (n : nat) (s : list ascii) :
  forall (count : nat) (prev : option ascii) (st' : Pos),
  In st' (greedy p n count prev s) ->
  length (snd st') + (n - count) <= length s.
Proof.
  induction s as [|c s IH]; intros count prev st' Hin; cbn in Hin.
  - destruct (n <=? count) eqn:E; [|contradiction].
    apply Nat.leb_le in E. destruct Hin as [<-|[]]. cbn. lia.
  - apply in_app_or in Hin as [Hin|Hin].
    + destruct (p c); [|contradiction].
      apply IH in Hin. cbn. lia.
    + destruct (n <=? count) eqn:E; [|contradiction].
      apply Nat.leb_le in E. destruct Hin as [<-|[]]. cbn. lia.
Qed.

Lemma repeat_run_length (f : Pos -> list Pos) (k : nat) :
  (forall st st', In st' (f st) -> length (snd st') + k <= length (snd st)) ->
  forall (n : nat) (st st' : Pos),
  In st' (repeat_run f n st) ->
  length (snd st') + n * k <= length (snd st).
Proof.
  intros Hf. induction n as [|n IH]; intros st st' Hin; cbn in Hin.
  - destruct Hin as [<-|[]]. lia.
  - apply in_flat_map in Hin as (mid & Hmid & Hin).
    apply Hf in Hmid. apply IH in Hin. lia.
Qed.

Lemma run_length (r : Regex) :
  forall (st st' : Pos),
  In st' (run r st) -> length (snd st') + min_length r <= length (snd st).
Proof.
  induction r as [|p|r1 IH1 r2 IH2|r1 IH1|n p|n r1 IH1]; intros st st' Hin;
    cbn [run min_length] in *.
  - destruct (at_boundary st); [|contradiction].
    destruct Hin as [<-|[]]. lia.
  - destruct (snd st) as [|c s] eqn:E; [contradiction|].
    destruct (p c); [|contradiction].
    destruct Hin as [<-|[]]. cbn. lia.
  - apply in_flat_map in Hin as (mid & Hmid & Hin).
    apply IH1 in Hmid. apply IH2 in Hin. lia.
  - apply in_app_or in Hin as [Hin|[<-|[]]]; [|lia].
    apply IH1 in Hin. lia.
  - apply greedy_length in Hin. lia.
  - apply (repeat_run_length (run r1) (min_length r1) IH1) in Hin. exact Hin.
Qed.

Lemma string_of_list_ascii_length (l : list ascii) :
  String.length (string_of_list_ascii l) = length l.
Proof. induction l as [|c l IH]; cbn; [reflexivity | rewrite IH; reflexivity]. Qed.

Lemma list_ascii_of_string_length (s : string) :
  length (list_ascii_of_string s) = String.length s.
Proof. induction s as [|c s IH]; cbn; [reflexivity | rewrite IH; reflexivity]. Qed.

Lemma search_bounds (r : Regex) (s : list ascii) :
  forall (prev : option ascii) (index i : nat) (m : string),
  search r prev s index = Some (i, m) ->
  index <= i /\ i + String.length m <= index + length s
  /\ min_length r <= String.length m.
Proof.
  induction s as [|c s IH]; intros prev index i m H; cbn [search] in H.
  - destruct (run r (prev, [])) as [|st' ?] eqn:E; [discriminate|].
    injection H as <- <-.
    assert (Hin : In st' (run r (prev, []))) by (rewrite E; left; reflexivity).
    apply run_length in Hin. cbn in *. lia.
  - destruct (run r (prev, c :: s)) as [|st' ?] eqn:E.
    + apply IH in H. cbn. lia.
    + injection H as <- <-.
      assert (Hin : In st' (run r (prev, c :: s))) by (rewrite E; left; reflexivity).
      apply run_length in Hin. cbn [snd] in Hin.
      rewrite string_of_list_ascii_length, length_take.
      cbn [length] in *. lia.
Qed.

Lemma exec_bounds (r : Regex) (text : string) (lastIndex i : nat) (m : string) :
  exec r text lastIndex = Some (i, m) ->
  lastIndex <= i /\ i + String.length m <= String.length text
  /\ min_length r <= String.length m.
Proof.
  unfold exec. intros H.
  destruct (length (list_ascii_of_string text) <? lastIndex) eqn:E;
    [discriminate|].
  apply Nat.ltb_ge in E. apply search_bounds in H.
  rewrite length_drop, list_ascii_of_string_length in *. lia.
Qed.

(** The loop is a fold over the collected matches. *)
Lemma exec_loop_fold {St : Type} (r : Regex) (text : string)
    (body : St -> nat * string -> St) (fuel : nat) :
  forall (lastIndex : nat) (s : St),
  exec_loop fuel r text lastIndex body s
  = let* ms := matches_from fuel r text lastIndex in Ok (foldl body s ms).
Proof.
  induction fuel as [|fuel IH]; intros lastIndex s; cbn; [reflexivity|].
  destruct (exec r text lastIndex) as [m|]; [|reflexivity].
  rewrite IH.
  destruct (matches_from fuel r text (fst m + String.length (snd m)));
    reflexivity.
Qed.

(** A pattern that cannot match the empty string lets the loop end. *)
Lemma matches_from_total (r : Regex) (text : string) :
  1 <= min_length r ->
  forall (fuel lastIndex : nat),
  lastIndex <= String.length text ->
  String.length text + 2 <= fuel + lastIndex ->
  exists ms, matches_from fuel r text lastIndex = Ok ms.
Proof.
  intros Hmin. induction fuel as [|fuel IH]; intros lastIndex Hle Hfuel.
  - lia.
  - cbn. destruct (exec r text lastIndex) as [[i m]|] eqn:E.
    + apply exec_bounds in E. cbn [fst snd].
      destruct (IH (i + String.length m)) as [ms Hms]; [lia | lia |].
      rewrite Hms. eexists. reflexivity.
    + eexists. reflexivity.
Qed.

Lemma PATTERNS_min_length (patternType : PatternType) :
  1 <= min_length (PATTERNS patternType).
Proof. destruct patternType; vm_compute; lia. Qed.

Lemma while_exec_eq {St : Type} (patternType : PatternType) (text : string)
    (body : St -> nat * string -> St) (s : St) :
  while_exec (PATTERNS patternType) text body s
  = Ok (foldl body s (all_matches (PATTERNS patternType) text)).
Proof.
  unfold while_exec, all_matches. rewrite exec_loop_fold.
  destruct (matches_from_total (PATTERNS patternType) text
              (PATTERNS_min_length patternType)
              (String.length text + 2) 0) as [ms Hms]; [lia | lia |].
  rewrite Hms. reflexivity.
Qed.

(** ** The pattern locator *)

Lemma add_match_fold (pageNum : nat) (viewport : Viewport)
    (positionMap : list Position) (patternType : PatternType)
    (ms : list (nat * string)) (acc : list PatternMatch.t) :
  foldl (add_match pageNum viewport positionMap patternType) acc ms
  = acc ++ foldl (add_match pageNum viewport positionMap patternType) [] ms.
Proof.
  revert acc. induction ms as [|m ms IH]; intros acc; cbn [foldl].
  - rewrite app_nil_r. reflexivity.
  - rewrite IH.
    rewrite (IH (add_match pageNum viewport positionMap patternType [] m)).
    rewrite app_assoc. f_equal.
    unfold add_match. destruct (first_position positionMap (fst m)).
    + reflexivity.
    + rewrite app_nil_r. reflexivity.
Qed.

Lemma add_match_type (pageNum : nat) (viewport : Viewport)
    (positionMap : list Position) (patternType : PatternType)
    (ms : list (nat * string)) (acc : list PatternMatch.t) :
  Forall (fun m => PatternMatch.patternType m = patternType) acc ->
  Forall (fun m => PatternMatch.patternType m = patternType)
         (foldl (add_match pageNum viewport positionMap patternType) acc ms).
Proof.
  revert acc. induction ms as [|m ms IH]; intros acc Hacc; cbn [foldl].
  - exact Hacc.
  - apply IH. unfold add_match.
    destruct (first_position positionMap (fst m)); [|exact Hacc].
    apply Forall_app. split; [exact Hacc|].
    constructor; [reflexivity | constructor].
Qed.

Lemma page_pattern_matches_type (pageNum : nat) (page : Page)
    (patternType : PatternType) :
  Forall (fun m => PatternMatch.patternType m = patternType)
         (page_pattern_matches pageNum page patternType).
Proof.
  unfold page_pattern_matches.
  destruct (build_fullText (getTextContent page)) as [fullText positionMap].
  apply add_match_type. constructor.
Qed.

Lemma detect_page_eq (doc : PdfFile) (patternTypes : list PatternType)
    (acc : list PatternMatch.t) (i : nat) (page : Page) :
  pdf_pages doc !! i = Some page ->
  detect_page doc patternTypes acc (S i)
  = Ok (acc ++ flat_map (page_pattern_matches (S i) page) patternTypes).
Proof.
  intros Hp. unfold detect_page, getPage. rewrite Hp. cbn [bind].
  unfold page_pattern_matches.
  destruct (build_fullText (getTextContent page)) as [fullText positionMap].
  revert acc. induction patternTypes as [|pt pts IH]; intros acc;
    cbn [for_of flat_map].
  - rewrite app_nil_r. reflexivity.
  - unfold detect_pattern at 1. rewrite while_exec_eq. cbn [bind].
    rewrite IH. rewrite add_match_fold, <- app_assoc. reflexivity.
Qed.

Lemma detect_loop_eq (doc : PdfFile) (patternTypes : list PatternType)
    (ps : list Page) :
  forall (k : nat) (acc : list PatternMatch.t),
  drop k (pdf_pages doc) = ps ->
  for_of (seq (S k) (length ps)) (detect_page doc patternTypes) acc
  = Ok (acc ++ detect_pages patternTypes (S k) ps).
Proof.
  induction ps as [|p ps IH]; intros k acc Hdrop; cbn [length seq for_of detect_pages].
  - rewrite app_nil_r. reflexivity.
  - apply drop_lookup_head in Hdrop as [Hp Hrest].
    rewrite (detect_page_eq _ _ _ _ _ Hp). cbn [bind].
    rewrite (IH (S k) _ Hrest), <- app_assoc. reflexivity.
Qed.

Lemma detectSensitivePatterns_eq (doc : PdfFile) (patternTypes : list PatternType) :
  detectSensitivePatterns (PdfData doc) patternTypes
  = Ok (detect_pages patternTypes 1 (pdf_pages doc)).
Proof.
  unfold detectSensitivePatterns. cbn [getDocument bind]. unfold numPages.
  rewrite (detect_loop_eq doc patternTypes (pdf_pages doc) 0 [] eq_refl).
  reflexivity.
Qed.

(** *** Matches by category *)

Lemma of_type_app (c : PatternType) (l1 l2 : list PatternMatch.t) :
  of_type c (l1 ++ l2) = of_type c l1 ++ of_type c l2.
Proof. unfold of_type. apply filter_app. Qed.

Lemma of_type_same (c : PatternType) (l : list PatternMatch.t) :
  Forall (fun m => PatternMatch.patternType m = c) l -> of_type c l = l.
Proof.
  unfold of_type. induction 1 as [|m l Hm _ IH]; [reflexivity|].
  rewrite filter_cons_True by exact Hm. rewrite IH. reflexivity.
Qed.

Lemma of_type_other (c c' : PatternType) (l : list PatternMatch.t) :
  c' <> c ->
  Forall (fun m => PatternMatch.patternType m = c') l -> of_type c l = [].
Proof.
  unfold of_type. intros Hne. induction 1 as [|m l Hm _ IH]; [reflexivity|].
  rewrite filter_cons_False by congruence. exact IH.
Qed.

Lemma of_type_page (c : PatternType) (pageNum : nat) (page : Page)
    (patternTypes : list PatternType) :
  NoDup patternTypes ->
  of_type c (flat_map (page_pattern_matches pageNum page) patternTypes)
  = if decide (c ∈ patternTypes)
    then page_pattern_matches pageNum page c else [].
Proof.
  induction 1 as [|pt pts Hnotin Hnodup IH]; cbn [flat_map].
  - destruct (decide (c ∈ [])) as [H|_]; [inversion H | reflexivity].
  - rewrite of_type_app, IH.
    destruct (decide (pt = c)) as [->|Hne].
    + rewrite (of_type_same c _ (page_pattern_matches_type pageNum page c)).
      destruct (decide (c ∈ pts)) as [H|_]; [contradiction|].
      destruct (decide (c ∈ c :: pts)) as [_|H].
      * apply app_nil_r.
      * exfalso. apply H. left.
    + rewrite (of_type_other c pt _ Hne (page_pattern_matches_type pageNum page pt)).
      cbn [app].
      destruct (decide (c ∈ pts)) as [H|H];
        destruct (decide (c ∈ pt :: pts)) as [H'|H']; try reflexivity.
      * exfalso. apply H'. right. exact H.
      * exfalso. apply elem_of_cons in H' as [->|H']; [congruence|contradiction].
Qed.

Lemma of_type_detect_pages (c : PatternType) (patternTypes : list PatternType)
    (pages : list Page) :
  NoDup patternTypes ->
  forall pageNum,
  of_type c (detect_pages patternTypes pageNum pages)
  = if decide (c ∈ patternTypes) then detect_pages [c] pageNum pages else [].
Proof.
  intros Hnodup. induction pages as [|p ps IH]; intros pageNum; cbn [detect_pages].
  - destruct (decide (c ∈ patternTypes)); reflexivity.
  - rewrite of_type_app, IH, (of_type_page c pageNum p patternTypes Hnodup).
    destruct (decide (c ∈ patternTypes)); [|reflexivity].
    cbn [flat_map]. rewrite app_nil_r. reflexivity.
Qed.

Lemma all_patternTypes_NoDup : NoDup all_patternTypes.
Proof.
  unfold all_patternTypes. rewrite !NoDup_cons, !not_elem_of_cons.
  repeat split; try discriminate; try apply not_elem_of_nil.
  apply NoDup_nil_2.
Qed.

Lemma all_patternTypes_complete (c : PatternType) : c ∈ all_patternTypes.
Proof.
  unfold all_patternTypes. rewrite !elem_of_cons.
  destruct c; auto.
Qed.

(** A list of matches is its four categories put together. *)
Lemma split_by_type (l : list PatternMatch.t) :
  l ≡ₚ of_type ssn l ++ of_type email l ++ of_type phone l
       ++ of_type credit_card l.
Proof.
  unfold of_type. induction l as [|m l IH]; [reflexivity|].
  destruct (PatternMatch.patternType m) eqn:E.
  - rewrite (filter_cons_True (fun m => PatternMatch.patternType m = ssn)) by exact E.
    rewrite !(filter_cons_False _ m) by congruence.
    cbn [app]. constructor. exact IH.
  - rewrite (filter_cons_True (fun m => PatternMatch.patternType m = email)) by exact E.
    rewrite !(filter_cons_False _ m) by congruence.
    apply Permutation_cons_app. exact IH.
  - rewrite (filter_cons_True (fun m => PatternMatch.patternType m = phone)) by exact E.
    rewrite !(filter_cons_False _ m) by congruence.
    cbn [app]. rewrite (app_assoc _ _ (m :: _)). apply Permutation_cons_app.
    rewrite <- app_assoc. exact IH.
  - rewrite (filter_cons_True (fun m => PatternMatch.patternType m = credit_card))
      by exact E.
    rewrite !(filter_cons_False _ m) by congruence.
    cbn [app]. rewrite (app_assoc _ _ (m :: _)), (app_assoc _ _ (m :: _)).
    apply Permutation_cons_app.
    rewrite <- !app_assoc. exact IH.
Qed.

Lemma of_type_enabled (c : PatternType) (patternTypes : list PatternType)
    (l : list PatternMatch.t) :
  of_type c (filter (fun m => PatternMatch.patternType m ∈ patternTypes) l)
  = if decide (c ∈ patternTypes) then of_type c l else [].
Proof.
  unfold of_type. induction l as [|m l IH].
  - destruct (decide (c ∈ patternTypes)); reflexivity.
  - destruct (decide (PatternMatch.patternType m ∈ patternTypes)) as [Hin|Hout].
    + rewrite (filter_cons_True _ m l Hin).
      destruct (decide (PatternMatch.patternType m = c)) as [E|E].
      * rewrite !(filter_cons_True _ m) by exact E. rewrite IH.
        destruct (decide (c ∈ patternTypes)) as [_|H]; [reflexivity|].
        exfalso. apply H. rewrite <- E. exact Hin.
      * rewrite !(filter_cons_False _ m) by exact E. exact IH.
    + rewrite (filter_cons_False _ m l Hout). rewrite IH.
      destruct (decide (c ∈ patternTypes)) as [H|_]; [|reflexivity].
      rewrite filter_cons_False; [reflexivity|].
      intros E. apply Hout. rewrite E. exact H.
Qed.

(** ** C6: toggling pattern categories *)

(** C6.  For a list of distinct categories the locator returns, category by
    category, exactly what it returns for that category when all four are
    enabled if the category is in the list, and nothing if it is not; so its
    output is, up to the order of the categories, the matches of the full
    output whose category is enabled. *)
Theorem pattern_toggling (doc : PdfFile) (patternTypes : list PatternType) :
  NoDup patternTypes ->
  exists ms full,
    detectSensitivePatterns (PdfData doc) patternTypes = Ok ms /\
    detectSensitivePatterns (PdfData doc) all_patternTypes = Ok full /\
    (forall c, of_type c ms
               = if decide (c ∈ patternTypes) then of_type c full else []) /\
    ms ≡ₚ filter (fun m => PatternMatch.patternType m ∈ patternTypes) full.
Proof.
  intros Hnodup. rewrite !detectSensitivePatterns_eq.
  eexists. eexists. split; [reflexivity|]. split; [reflexivity|].
  assert (Hcat : forall c,
    of_type c (detect_pages patternTypes 1 (pdf_pages doc))
    = if decide (c ∈ patternTypes)
      then of_type c (detect_pages all_patternTypes 1 (pdf_pages doc)) else []).
  { intros c.
    rewrite (of_type_detect_pages c patternTypes _ Hnodup).
    rewrite (of_type_detect_pages c all_patternTypes _ all_patternTypes_NoDup).
    destruct (decide (c ∈ all_patternTypes)) as [_|H]; [reflexivity|].
    exfalso. apply H. apply all_patternTypes_complete. }
  split; [exact Hcat|].
  rewrite (split_by_type (detect_pages patternTypes 1 (pdf_pages doc))).
  rewrite (split_by_type (filter _ _)).
  rewrite !of_type_enabled, !Hcat. reflexivity.
Qed.

Lemma pattern_toggling_witness :
  exists ms full,
    detectSensitivePatterns (PdfData doc_mixed) [email] = Ok ms /\
    detectSensitivePatterns (PdfData doc_mixed) all_patternTypes = Ok full /\
    (forall c, of_type c ms
               = if decide (c ∈ [email]) then of_type c full else []) /\
    ms ≡ₚ filter (fun m => PatternMatch.patternType m ∈ [email]) full.
Proof.
  apply (pattern_toggling doc_mixed [email]).
  apply NoDup_singleton.
Defined.

(** On [doc_mixed]: both categories are found when all are enabled, and only
    the e-mail address when the SSN category is disabled. *)
Example pattern_toggling_doc_mixed :
  (let* ms := detectSensitivePatterns (PdfData doc_mixed) all_patternTypes in
   Ok (map (fun m => (PatternMatch.patternType m, PatternMatch.text m)) ms))
  = Ok [(ssn, "555-12-3456"); (email, "a@b.com")]
  /\ (let* ms := detectSensitivePatterns (PdfData doc_mixed) [email; phone; credit_card] in
      Ok (map (fun m => (PatternMatch.patternType m, PatternMatch.text m)) ms))
     = Ok [(email, "a@b.com")].
Proof. vm_compute. split; reflexivity. Qed.

(** ** C3: a match that spans two runs *)

(** C3, the code at the failing input.  The SSN of [doc_split] lies over two
    runs, which take up [[0, 6)] and [[7, 11)] of the page text
    ["123-45 6789 "]; the match is [[0, 11)].  The pattern locator returns
    one match, but with the box of the first run only, [72, 112] across,
    where the union of the two runs is [72, 150]; the second run, from 120
    to 150, is left out.  The literal locator looks into each run on its
    own and finds nothing for a term split over two runs. *)
Theorem split_match_first_run_only :
  build_fullText (getTextContent (letter_page
      [text_item "123-45" 72 720 40 12; text_item "6789" 120 720 30 12] true))
  = ("123-45 6789 ",
     [ {| pos_start := 0; pos_end := 6;
          pos_item := text_item "123-45" 72 720 40 12 |};
       {| pos_start := 7; pos_end := 11;
          pos_item := text_item "6789" 120 720 30 12 |} ])
  /\ all_matches (PATTERNS ssn) "123-45 6789 " = [(0, "123-45 6789")]
  /\ detectSensitivePatterns (PdfData doc_split) [ssn]
     = Ok [ {| PatternMatch.pageIndex := 0;
               PatternMatch.text := "123-45 6789";
               PatternMatch.pattern := "123-45 6789";
               PatternMatch.patternType := ssn;
               PatternMatch.x := 72; PatternMatch.y := 60;
               PatternMatch.width := 40; PatternMatch.height := 16 |} ]
  /\ span_union 792
       [ {| pos_start := 0; pos_end := 6;
            pos_item := text_item "123-45" 72 720 40 12 |};
         {| pos_start := 7; pos_end := 11;
            pos_item := text_item "6789" 120 720 30 12 |} ] 0 11
     = Some {| box_x := 72; box_y := 60; box_width := 78; box_height := 16 |}
  /\ findTextInPdf (PdfData doc_conf) "CONFIDENTIAL" false = Ok [].
Proof. vm_compute. repeat split; reflexivity. Qed.

(** * Properties of the rest of the library *)

From Stdlib Require Import Lqa.

(** ** The literal locator *)

Lemma find_item_fold (searchTermLower : string) (caseSensitive : bool)
    (pageNum : nat) (viewport : Viewport) (items : list Item)
    (acc : list TextMatch.t) :
  foldl (find_item searchTermLower caseSensitive pageNum viewport) acc items
  = acc ++ map (match_of_item pageNum viewport)
             (List.filter (item_hit searchTermLower caseSensitive)
                (omap (fun item => match item with
                                   | TextI textItem => Some textItem
                                   | MarkedI => None
                                   end) items)).
Proof.
  revert acc. induction items as [|item items IH]; intros acc.
  - cbn. rewrite app_nil_r. reflexivity.
  - cbn [foldl]. rewrite IH.
    destruct item as [textItem|]; cbn [find_item omap list_omap List.filter];
      [|reflexivity].
    unfold item_hit at 2.
    destruct (includes _ searchTermLower); [|reflexivity].
    cbn [map]. rewrite <- app_assoc. reflexivity.
Qed.

Lemma find_page_eq (doc : PdfFile) (searchTermLower : string)
    (caseSensitive : bool) (acc : list TextMatch.t) (i : nat) (page : Page) :
  pdf_pages doc !! i = Some page ->
  find_page doc searchTermLower caseSensitive acc (S i)
  = Ok (acc ++ find_on_page searchTermLower caseSensitive (S i) page).
Proof.
  intros Hp. unfold find_page, getPage. rewrite Hp. cbn [bind].
  rewrite find_item_fold. reflexivity.
Qed.

Lemma find_loop_eq (doc : PdfFile) (searchTermLower : string)
    (caseSensitive : bool) (ps : list Page) :
  forall (k : nat) (acc : list TextMatch.t),
  drop k (pdf_pages doc) = ps ->
  for_of (seq (S k) (length ps)) (find_page doc searchTermLower caseSensitive) acc
  = Ok (acc ++ find_pages searchTermLower caseSensitive (S k) ps).
Proof.
  induction ps as [|p ps IH]; intros k acc Hdrop;
    cbn [length seq for_of find_pages].
  - rewrite app_nil_r. reflexivity.
  - apply drop_lookup_head in Hdrop as [Hp Hrest].
    rewrite (find_page_eq _ _ _ _ _ _ Hp). cbn [bind].
    rewrite (IH (S k) _ Hrest), <- app_assoc. reflexivity.
Qed.

Lemma findTextInPdf_eq (doc : PdfFile) (searchTerm : string) (caseSensitive : bool) :
  findTextInPdf (PdfData doc) searchTerm caseSensitive
  = Ok (find_pages (if caseSensitive then searchTerm else toLowerCase searchTerm)
                   caseSensitive 1 (pdf_pages doc)).
Proof.
  unfold findTextInPdf. cbn [getDocument bind]. unfold numPages.
  rewrite (find_loop_eq doc _ caseSensitive (pdf_pages doc) 0 [] eq_refl).
  reflexivity.
Qed.

Lemma find_pages_In (searchTermLower : string) (caseSensitive : bool)
    (pages : list Page) :
  forall (k : nat) (m : TextMatch.t),
  In m (find_pages searchTermLower caseSensitive (S k) pages) <->
  exists j page textItem,
    pages !! j = Some page /\ In textItem (text_items page) /\
    item_hit searchTermLower caseSensitive textItem = true /\
    m = match_of_item (S (k + j)) (getViewport page 1) textItem.
Proof.
  induction pages as [|p ps IH]; intros k m; cbn [find_pages].
  - split; [intros [] | intros (j & page & ti & H & _)]. discriminate.
  - rewrite in_app_iff, IH. unfold find_on_page. rewrite in_map_iff. split.
    + intros [(ti & <- & Hti)|(j & page & ti & Hp & Hti & Hhit & ->)].
      * apply filter_In in Hti as [Hti Hhit].
        exists 0, p, ti. rewrite Nat.add_0_r. repeat split; assumption.
      * exists (S j), page, ti. rewrite Nat.add_succ_r.
        repeat split; assumption.
    + intros (j & page & ti & Hp & Hti & Hhit & ->). destruct j as [|j].
      * left. injection Hp as <-. exists ti. rewrite Nat.add_0_r.
        split; [reflexivity|]. apply filter_In. split; assumption.
      * right. exists j, page, ti. rewrite Nat.add_succ_r.
        repeat split; assumption.
Qed.

(** X1.  The literal locator returns a match for a text item exactly when
    the term occurs inside the text of that one item (both lower-cased
    unless the search is case sensitive); the match carries the page index
    of the item, the whole text of the item and the box of the item. *)
Theorem findTextInPdf_matches (doc : PdfFile) (searchTerm : string)
    (caseSensitive : bool) :
  exists ms,
    findTextInPdf (PdfData doc) searchTerm caseSensitive = Ok ms /\
    forall m, In m ms <->
      exists i page textItem,
        pdf_pages doc !! i = Some page /\ In textItem (text_items page) /\
        includes (if caseSensitive then TextItem.str textItem
                  else toLowerCase (TextItem.str textItem))
                 (if caseSensitive then searchTerm else toLowerCase searchTerm)
        = true /\
        TextMatch.pageIndex m = i /\
        TextMatch.text m = TextItem.str textItem /\
        m = match_of_item (S i) (getViewport page 1) textItem.
Proof.
  rewrite findTextInPdf_eq. eexists. split; [reflexivity|].
  intros m. rewrite find_pages_In. split.
  - intros (j & page & ti & Hp & Hti & Hhit & ->).
    exists j, page, ti. cbn [Nat.add]. repeat split; try assumption.
    cbn. lia.
  - intros (j & page & ti & Hp & Hti & Hhit & _ & _ & ->).
    exists j, page, ti. repeat split; assumption.
Qed.

Lemma includes_empty (text : string) : includes text "" = true.
Proof. destruct text; reflexivity. Qed.

Lemma filter_all_true {A : Type} (f : A -> bool) (l : list A) :
  (forall x, f x = true) -> List.filter f l = l.
Proof.
  intros H. induction l as [|x l IH]; cbn; [reflexivity|].
  rewrite H, IH. reflexivity.
Qed.

Lemma find_pages_texts_all (searchTermLower : string) (caseSensitive : bool)
    (pages : list Page) (k : nat) :
  (forall textItem, item_hit searchTermLower caseSensitive textItem = true) ->
  map TextMatch.text (find_pages searchTermLower caseSensitive k pages)
  = flat_map (fun page => map TextItem.str (text_items page)) pages.
Proof.
  intros Hall. revert k. induction pages as [|p ps IH]; intros k;
    cbn [find_pages flat_map]; [reflexivity|].
  rewrite map_app, IH. f_equal. unfold find_on_page.
  rewrite (filter_all_true _ _ Hall), map_map. reflexivity.
Qed.

(** X2.  With the empty search term every text item of the document is a
    match: the texts of the matches are the texts of all text items, page
    after page in stream order. *)
Theorem findTextInPdf_empty_term (doc : PdfFile) (caseSensitive : bool) :
  exists ms,
    findTextInPdf (PdfData doc) "" caseSensitive = Ok ms /\
    map TextMatch.text ms
    = flat_map (fun page => map TextItem.str (text_items page)) (pdf_pages doc).
Proof.
  rewrite findTextInPdf_eq. eexists. split; [reflexivity|].
  apply find_pages_texts_all. intros ti. unfold item_hit.
  destruct caseSensitive; apply includes_empty.
Qed.

(** *** Case folding *)

Lemma lower_char_idem (c : ascii) : lower_char (lower_char c) = lower_char c.
Proof.
  destruct c as [[] [] [] [] [] [] [] []]; vm_compute; reflexivity.
Qed.

Lemma toLowerCase_idem (s : string) : toLowerCase (toLowerCase s) = toLowerCase s.
Proof.
  induction s as [|c s IH]; cbn; [reflexivity|].
  rewrite lower_char_idem, IH. reflexivity.
Qed.




(** X4.  A case-insensitive search does not depend on the case of the term:
    the term and its lower-case form give the same matches. *)
Theorem case_insensitive_term (doc : PdfFile) (searchTerm : string) :
  findTextInPdf (PdfData doc) searchTerm false
  = findTextInPdf (PdfData doc) (toLowerCase searchTerm) false.
Proof.
  rewrite !findTextInPdf_eq. rewrite toLowerCase_idem. reflexivity.
Qed.

(** ** Searching the renderer's output *)

Lemma text_items_no_text (page : Page) :
  getTextContent page = [] -> text_items page = [].
Proof. unfold text_items. intros ->. reflexivity. Qed.

Lemma find_pages_no_text (searchTermLower : string) (caseSensitive : bool)
    (pages : list Page) :
  Forall (fun p => getTextContent p = []) pages ->
  forall k, find_pages searchTermLower caseSensitive k pages = [].
Proof.
  induction 1 as [|p ps Hp _ IH]; intros k; cbn [find_pages]; [reflexivity|].
  rewrite IH. unfold find_on_page. rewrite (text_items_no_text p Hp).
  reflexivity.
Qed.

Lemma all_matches_empty_text (r : Regex) :
  1 <= min_length r -> all_matches r "" = [].
Proof.
  intros Hmin. unfold all_matches. cbn [String.length Nat.add matches_from].
  assert (E : exec r "" 0 = None).
  { unfold exec. cbn.
    destruct (run r (None, [])) as [|st' rest] eqn:E; [reflexivity|].
    exfalso.
    assert (Hin : In st' (run r (None, []))) by (rewrite E; left; reflexivity).
    apply run_length in Hin. cbn in Hin. lia. }
  rewrite E. reflexivity.
Qed.

Lemma page_pattern_matches_no_text (pageNum : nat) (page : Page)
    (patternType : PatternType) :
  getTextContent page = [] -> page_pattern_matches pageNum page patternType = [].
Proof.
  intros Hp. unfold page_pattern_matches. rewrite Hp. cbn [build_fullText foldl].
  rewrite (all_matches_empty_text _ (PATTERNS_min_length patternType)).
  reflexivity.
Qed.

Lemma detect_pages_no_text (patternTypes : list PatternType) (pages : list Page) :
  Forall (fun p => getTextContent p = []) pages ->
  forall k, detect_pages patternTypes k pages = [].
Proof.
  induction 1 as [|p ps Hp _ IH]; intros k; cbn [detect_pages]; [reflexivity|].
  rewrite IH, app_nil_r. clear IH.
  induction patternTypes as [|pt pts IHpt]; cbn [flat_map]; [reflexivity|].
  rewrite IHpt, app_nil_r. apply page_pattern_matches_no_text. exact Hp.
Qed.

(** X5.  Nothing can be found in a document the renderer returned: the
    literal search returns no match for any term, and the pattern search
    returns no match for any list of categories. *)
Theorem redacted_output_unsearchable (now : Z) (pdfBytes out : ArrayBuffer)
    (areas : list RedactionArea.t) (renderScale : Q) :
  redactPdfByAreas now pdfBytes areas renderScale = Ok out ->
  (forall searchTerm caseSensitive,
     findTextInPdf out searchTerm caseSensitive = Ok [])
  /\ (forall patternTypes, detectSensitivePatterns out patternTypes = Ok []).
Proof.
  intros H. apply redactPdfByAreas_inv in H as (doc & _ & _ & ->). split.
  - intros t cs. rewrite findTextInPdf_eq. cbn [pdf_pages].
    rewrite find_pages_no_text; [reflexivity | apply flatten_pages_no_text].
  - intros pts. rewrite detectSensitivePatterns_eq. cbn [pdf_pages].
    rewrite detect_pages_no_text; [reflexivity | apply flatten_pages_no_text].
Qed.

Lemma redacted_output_unsearchable_witness :
  (forall searchTerm caseSensitive,
     findTextInPdf (PdfData doc_ssn_redacted) searchTerm caseSensitive = Ok [])
  /\ (forall patternTypes,
        detectSensitivePatterns (PdfData doc_ssn_redacted) patternTypes = Ok []).
Proof.
  apply (redacted_output_unsearchable 0 (PdfData doc_ssn)
           (PdfData doc_ssn_redacted) [area_ssn] default_renderScale).
  vm_compute. reflexivity.
Defined.

(** ** The verifier finds what was not redacted *)








(** ** The verifier on a list of regions put together *)

(** X7.  The report for two lists of regions put one after the other is made
    of the reports for each: the fragments of the first followed by those of
    the second, and success exactly when both succeed.  With no region at
    all the verifier succeeds, whatever the document. *)
Theorem verifyRedaction_app (doc : PdfFile) (R1 R2 : list RedactionArea.t) :
  exists r1 r2 r,
    verifyRedaction (PdfData doc) R1 = Ok r1 /\
    verifyRedaction (PdfData doc) R2 = Ok r2 /\
    verifyRedaction (PdfData doc) (R1 ++ R2) = Ok r /\
    extractedText r = extractedText r1 ++ extractedText r2 /\
    success r = success r1 && success r2 /\
    verifyRedaction (PdfData doc) [] = Ok {| success := true; extractedText := [] |}.
Proof.
  unfold verifyRedaction. cbn [getDocument bind].
  rewrite !verify_loop_eq. cbn [bind app].
  eexists. eexists. eexists.
  split; [reflexivity|]. split; [reflexivity|]. split; [reflexivity|].
  cbn [extractedText success]. rewrite flat_map_app.
  split; [reflexivity|]. split; [|reflexivity].
  rewrite length_app.
  destruct (length (flat_map (overlapping_texts doc) R1));
    destruct (length (flat_map (overlapping_texts doc) R2)); reflexivity.
Qed.

(** ** What the renderer paints *)

Lemma masks_of_flattened (areas : list RedactionArea.t) (renderScale : Q)
    (i : nat) (page : Page) :
  masks_of_page (flattened areas renderScale i page)
  = map (mask renderScale) (on_page i areas).
Proof.
  unfold masks_of_page, flattened, flattened_image. cbn [pg_content flat_map List.filter].
  rewrite app_nil_r.
  induction (on_page i areas) as [|a l IH]; [reflexivity|].
  cbn [map List.filter mask]. rewrite IH. reflexivity.
Qed.

Lemma filter_page_split (k n : nat) (areas : list RedactionArea.t) :
  filter (fun a => k <= RedactionArea.pageIndex a < k + S n) areas
  ≡ₚ on_page k areas
     ++ filter (fun a => S k <= RedactionArea.pageIndex a < S k + n) areas.
Proof.
  unfold on_page. induction areas as [|a l IH]; [reflexivity|].
  destruct (decide (RedactionArea.pageIndex a = k)) as [E|E].
  - rewrite (filter_cons_True (fun a => k <= RedactionArea.pageIndex a < k + S n))
      by lia.
    rewrite (filter_cons_True (fun a => RedactionArea.pageIndex a = k)) by exact E.
    rewrite (filter_cons_False (fun a => S k <= RedactionArea.pageIndex a < S k + n))
      by lia.
    cbn [app]. constructor. exact IH.
  - rewrite (filter_cons_False (fun a => RedactionArea.pageIndex a = k)) by exact E.
    destruct (decide (S k <= RedactionArea.pageIndex a < S k + n)) as [H|H].
    + rewrite (filter_cons_True (fun a => k <= RedactionArea.pageIndex a < k + S n))
        by lia.
      rewrite (filter_cons_True
                 (fun a => S k <= RedactionArea.pageIndex a < S k + n)) by exact H.
      apply Permutation_cons_app. exact IH.
    + rewrite (filter_cons_False (fun a => k <= RedactionArea.pageIndex a < k + S n))
        by lia.
      rewrite (filter_cons_False
                 (fun a => S k <= RedactionArea.pageIndex a < S k + n)) by exact H.
      exact IH.
Qed.

Lemma masks_of_flatten_pages (areas : list RedactionArea.t) (renderScale : Q)
    (pages : list Page) :
  forall k,
  flat_map masks_of_page (flatten_pages areas renderScale k pages)
  ≡ₚ map (mask renderScale)
       (filter (fun a => k <= RedactionArea.pageIndex a < k + length pages) areas).
Proof.
  induction pages as [|p ps IH]; intros k; cbn [flatten_pages flat_map length].
  - assert (E : filter (fun a => k <= RedactionArea.pageIndex a < k + 0) areas = []).
    { induction areas as [|a l IHl]; [reflexivity|].
      rewrite filter_cons_False by lia. exact IHl. }
    rewrite E. reflexivity.
  - rewrite masks_of_flattened, IH, (filter_page_split k (length ps) areas).
    rewrite map_app. reflexivity.
Qed.

(** X8.  The rectangles filled on the pages of the output are, up to their
    order, the scaled rectangles of the regions whose page index is below the
    page count: each such region is painted exactly once, and nothing else
    is painted. *)
Theorem painted_masks (now : Z) (doc : PdfFile) (out : ArrayBuffer)
    (areas : list RedactionArea.t) (renderScale : Q) :
  redactPdfByAreas now (PdfData doc) areas renderScale = Ok out ->
  exists outdoc, out = PdfData outdoc /\
    flat_map masks_of_page (pdf_pages outdoc)
    ≡ₚ map (mask renderScale)
         (filter (fun a => RedactionArea.pageIndex a < numPages doc) areas).
Proof.
  intros H. apply redactPdfByAreas_inv in H as (doc' & E & _ & ->).
  injection E as <-. eexists. split; [reflexivity|]. cbn [pdf_pages].
  rewrite masks_of_flatten_pages. unfold numPages.
  assert (E : filter (fun a => 0 <= RedactionArea.pageIndex a
                               < 0 + length (pdf_pages doc)) areas
              = filter (fun a => RedactionArea.pageIndex a < length (pdf_pages doc))
                       areas).
  { apply list_filter_iff. intros a. lia. }
  rewrite E. reflexivity.
Qed.

Lemma painted_masks_witness :
  exists outdoc, PdfData doc_ssn_redacted = PdfData outdoc /\
    flat_map masks_of_page (pdf_pages outdoc)
    ≡ₚ map (mask default_renderScale)
         (filter (fun a => RedactionArea.pageIndex a < numPages doc_ssn)
                 [area_ssn; area_beyond]).
Proof.
  apply (painted_masks 0 doc_ssn (PdfData doc_ssn_redacted)
           [area_ssn; area_beyond] default_renderScale).
  vm_compute. reflexivity.
Defined.

(** ** The sanitizer leaves the pages alone *)

(** X9.  Sanitizing changes nothing in the pages: on the sanitized document
    the literal search, the pattern search and the verifier return what they
    return on the input.  Text that was not redacted is still there. *)
Theorem sanitizePdf_keeps_text (created modified : Z) (pdfBytes out : ArrayBuffer) :
  sanitizePdf created modified pdfBytes = Ok out ->
  (forall searchTerm caseSensitive,
     findTextInPdf out searchTerm caseSensitive
     = findTextInPdf pdfBytes searchTerm caseSensitive)
  /\ (forall patternTypes,
        detectSensitivePatterns out patternTypes
        = detectSensitivePatterns pdfBytes patternTypes)
  /\ (forall areas, verifyRedaction out areas = verifyRedaction pdfBytes areas).
Proof.
  intros H. destruct pdfBytes as [doc|]; [|discriminate].
  rewrite sanitizePdf_eq in H. injection H as <-.
  split; [|split].
  - intros t cs. rewrite !findTextInPdf_eq. reflexivity.
  - intros pts. rewrite !detectSensitivePatterns_eq. reflexivity.
  - intros areas. unfold verifyRedaction. cbn [getDocument bind].
    rewrite !verify_loop_eq. reflexivity.
Qed.

Lemma sanitizePdf_keeps_text_witness :
  (forall searchTerm caseSensitive,
     findTextInPdf (PdfData (sanitized 10 11 doc_ssn)) searchTerm caseSensitive
     = findTextInPdf (PdfData doc_ssn) searchTerm caseSensitive)
  /\ (forall patternTypes,
        detectSensitivePatterns (PdfData (sanitized 10 11 doc_ssn)) patternTypes
        = detectSensitivePatterns (PdfData doc_ssn) patternTypes)
  /\ (forall areas,
        verifyRedaction (PdfData (sanitized 10 11 doc_ssn)) areas
        = verifyRedaction (PdfData doc_ssn) areas).
Proof.
  apply (sanitizePdf_keeps_text 10 11 (PdfData doc_ssn)
           (PdfData (sanitized 10 11 doc_ssn))).
  reflexivity.
Defined.

(** ** Document information *)

Lemma sample_items_fst (items : list Item) (b : bool) (s : string) :
  fst (sample_items items (b, s)) = b || existsb item_nonblank items.
Proof.
  revert b s. induction items as [|item items IH]; intros b s; cbn [sample_items existsb].
  - rewrite orb_false_r. reflexivity.
  - destruct item as [ti|]; cbn [item_nonblank fst snd].
    + destruct (truthy (trim (TextItem.str ti))).
      * destruct (200 <? String.length (s ++ (TextItem.str ti ++ " "))%string).
        -- cbn. rewrite orb_true_r. reflexivity.
        -- rewrite IH. cbn. rewrite orb_true_r. reflexivity.
      * rewrite IH. reflexivity.
    + rewrite IH. reflexivity.
Qed.

Lemma sample_items_blank (items : list Item) (s : string) :
  existsb item_nonblank items = false ->
  sample_items items (false, s) = (false, s).
Proof.
  induction items as [|item items IH]; intros H; cbn [sample_items]; [reflexivity|].
  cbn [existsb] in H. apply orb_false_iff in H as [H1 H2].
  destruct item as [ti|]; cbn [item_nonblank] in H1.
  - rewrite H1. apply IH. exact H2.
  - apply IH. exact H2.
Qed.

Lemma substring_length_le (n : nat) (s : string) :
  String.length (String.substring 0 n s) <= n.
Proof.
  revert s. induction n as [|n IH]; intros s.
  - destruct s; cbn; lia.
  - destruct s as [|c s]; cbn; [lia|]. specialize (IH s). lia.
Qed.

Lemma existsb_item_nonblank (page : Page) :
  existsb item_nonblank (getTextContent page) = true <->
  exists textItem, In textItem (text_items page)
                   /\ trim (TextItem.str textItem) <> EmptyString.
Proof.
  unfold text_items. rewrite existsb_exists. split.
  - intros (item & Hin & Hnb). destruct item as [ti|]; [|discriminate].
    exists ti. split.
    + apply list_elem_of_In. apply list_elem_of_omap.
      exists (TextI ti). split; [apply list_elem_of_In; exact Hin | reflexivity].
    + cbn in Hnb. destruct (trim (TextItem.str ti)); [discriminate | discriminate].
  - intros (ti & Hin & Hnb).
    apply list_elem_of_In, list_elem_of_omap in Hin as (item & Hitem & Hsome).
    destruct item as [ti'|]; [|discriminate]. injection Hsome as ->.
    exists (TextI ti). split; [apply list_elem_of_In; exact Hitem|].
    cbn. destruct (trim (TextItem.str ti)); [contradiction | reflexivity].
Qed.

(** X10.  [getPdfInfo] answers for every document that parses.  The page
    count is that of the document; the text sample is at most 200 characters
    long; [hasExtractableText] is true exactly when the first page has a text
    item that is not all white space (the other pages are not looked at);
    and when it is false the sample is empty. *)
Theorem getPdfInfo_summary (doc : PdfFile) :
  exists info,
    getPdfInfo (PdfData doc) = Ok info /\
    pageCount info = numPages doc /\
    String.length (textSample info) <= 200 /\
    (hasExtractableText info = true <->
     exists page textItem,
       pdf_pages doc !! 0 = Some page /\ In textItem (text_items page) /\
       trim (TextItem.str textItem) <> EmptyString) /\
    (hasExtractableText info = false -> textSample info = EmptyString).
Proof.
  unfold getPdfInfo. cbn [PDFDocument.load getDocument bind]. unfold numPages, getPage.
  destruct (pdf_pages doc) as [|p ps] eqn:Hpages; cbn [length Nat.ltb Nat.leb bind lookup].
  - eexists. split; [reflexivity|]. cbn.
    repeat split; try lia; try reflexivity; try discriminate.
    intros (page & ti & H & _). discriminate.
  - cbn [list_lookup bind]. eexists. split; [reflexivity|].
    cbn [pageCount textSample hasExtractableText].
    split; [reflexivity|]. split; [apply substring_length_le|].
    rewrite sample_items_fst. cbn [orb]. split.
    + rewrite existsb_item_nonblank. split.
      * intros (ti & Hin & Hnb). exists p, ti. repeat split; assumption.
      * intros (page & ti & Hp & Hin & Hnb). injection Hp as <-.
        exists ti. split; assumption.
    + intros Hblank. rewrite (sample_items_blank _ _ Hblank). reflexivity.
Qed.

(** X11.  On a document the renderer returned, [getPdfInfo] reports the page
    count of the input, no metadata, no extractable text and an empty
    sample. *)
Theorem getPdfInfo_redacted (now : Z) (doc : PdfFile) (out : ArrayBuffer)
    (areas : list RedactionArea.t) (renderScale : Q) :
  redactPdfByAreas now (PdfData doc) areas renderScale = Ok out ->
  getPdfInfo out
  = Ok {| pageCount := numPages doc; title := Some ""; author := Some "";
          hasMetadata := false; hasExtractableText := false;
          textSample := "" |}.
Proof.
  intros H. apply redactPdfByAreas_inv in H as (doc' & E & _ & ->).
  injection E as <-.
  unfold getPdfInfo. cbn [PDFDocument.load getDocument bind]. unfold numPages, getPage.
  cbn [pdf_pages pdf_info]. rewrite flatten_pages_length.
  destruct (pdf_pages doc) as [|p ps]; reflexivity.
Qed.

Lemma getPdfInfo_redacted_witness :
  getPdfInfo (PdfData doc_ssn_redacted)
  = Ok {| pageCount := numPages doc_ssn; title := Some ""; author := Some "";
          hasMetadata := false; hasExtractableText := false;
          textSample := "" |}.
Proof.
  apply (getPdfInfo_redacted 0 doc_ssn (PdfData doc_ssn_redacted) [area_ssn]
           default_renderScale).
  vm_compute. reflexivity.
Defined.

(** X12.  On a sanitized document [getPdfInfo] reports no metadata; the page
    count, [hasExtractableText] and the text sample are those of the
    input. *)
Theorem getPdfInfo_sanitized (created modified : Z) (doc : PdfFile)
    (out : ArrayBuffer) :
  sanitizePdf created modified (PdfData doc) = Ok out ->
  exists before after,
    getPdfInfo (PdfData doc) = Ok before /\
    getPdfInfo out = Ok after /\
    hasMetadata after = false /\
    title after = Some "" /\ author after = Some "" /\
    pageCount after = pageCount before /\
    hasExtractableText after = hasExtractableText before /\
    textSample after = textSample before.
Proof.
  intros H. rewrite sanitizePdf_eq in H. injection H as <-.
  unfold getPdfInfo. cbn [PDFDocument.load getDocument bind]. unfold numPages, getPage.
  cbn [sanitized pdf_pages pdf_info].
  destruct (pdf_pages doc) as [|p ps];
    cbn [length Nat.ltb Nat.leb bind lookup list_lookup];
    eexists; eexists; (split; [reflexivity|]); (split; [reflexivity|]);
    repeat split; reflexivity.
Qed.

Lemma getPdfInfo_sanitized_witness :
  exists before after,
    getPdfInfo (PdfData doc_ssn) = Ok before /\
    getPdfInfo (PdfData (sanitized 10 11 doc_ssn)) = Ok after /\
    hasMetadata after = false /\
    title after = Some "" /\ author after = Some "" /\
    pageCount after = pageCount before /\
    hasExtractableText after = hasExtractableText before /\
    textSample after = textSample before.
Proof.
  apply (getPdfInfo_sanitized 10 11 doc_ssn (PdfData (sanitized 10 11 doc_ssn))).
  reflexivity.
Defined.

(** On [doc_ssn]: two pages, metadata present, and the text of the first
    page as the sample. *)
Example getPdfInfo_doc_ssn :
  getPdfInfo (PdfData doc_ssn)
  = Ok {| pageCount := 2; title := Some "Payroll"; author := Some "J. Smith";
          hasMetadata := true; hasExtractableText := true;
          textSample := "SSN: 123-45-6789" |}.
Proof. vm_compute. reflexivity. Qed.

(** ** What a pattern match looks like *)

Lemma greedy_suffix (p : ascii -> bool) (n : nat) (s : list ascii) :
  forall (count : nat) (prev : option ascii) (st' : Pos),
  In st' (greedy p n count prev s) -> exists pre, s = pre ++ snd st'.
Proof.
  induction s as [|c s IH]; intros count prev st' Hin; cbn in Hin.
  - destruct (n <=? count); [|contradiction].
    destruct Hin as [<-|[]]. exists []. reflexivity.
  - apply in_app_or in Hin as [Hin|Hin].
    + destruct (p c); [|contradiction].
      apply IH in Hin as [pre ->]. exists (c :: pre). reflexivity.
    + destruct (n <=? count); [|contradiction].
      destruct Hin as [<-|[]]. exists []. reflexivity.
Qed.

Lemma repeat_run_suffix (f : Pos -> list Pos) :
  (forall st st', In st' (f st) -> exists pre, snd st = pre ++ snd st') ->
  forall (n : nat) (st st' : Pos),
  In st' (repeat_run f n st) -> exists pre, snd st = pre ++ snd st'.
Proof.
  intros Hf. induction n as [|n IH]; intros st st' Hin; cbn in Hin.
  - destruct Hin as [<-|[]]. exists []. reflexivity.
  - apply in_flat_map in Hin as (mid & Hmid & Hin).
    apply Hf in Hmid as [pre1 E1]. apply IH in Hin as [pre2 E2].
    exists (pre1 ++ pre2). rewrite E1, E2, app_assoc. reflexivity.
Qed.

(** The matcher only moves forward: what is left is a suffix. *)
Lemma run_suffix (r : Regex) :
  forall (st st' : Pos),
  In st' (run r st) -> exists pre, snd st = pre ++ snd st'.
Proof.
  induction r as [|p|r1 IH1 r2 IH2|r1 IH1|n p|n r1 IH1]; intros st st' Hin;
    cbn [run] in Hin.
  - destruct (at_boundary st); [|contradiction].
    destruct Hin as [<-|[]]. exists []. reflexivity.
  - destruct (snd st) as [|c s] eqn:E; [contradiction|].
    destruct (p c); [|contradiction].
    destruct Hin as [<-|[]]. exists [c]. reflexivity.
  - apply in_flat_map in Hin as (mid & Hmid & Hin).
    apply IH1 in Hmid as [pre1 E1]. apply IH2 in Hin as [pre2 E2].
    exists (pre1 ++ pre2). rewrite E1, E2, app_assoc. reflexivity.
  - apply in_app_or in Hin as [Hin|[<-|[]]].
    + apply IH1. exact Hin.
    + exists []. reflexivity.
  - apply greedy_suffix in Hin. exact Hin.
  - apply (repeat_run_suffix (run r1) IH1) in Hin. exact Hin.
Qed.

Lemma repeat_run_max (f : Pos -> list Pos) (k : nat) :
  (forall st st', In st' (f st) -> length (snd st) <= length (snd st') + k) ->
  forall (n : nat) (st st' : Pos),
  In st' (repeat_run f n st) -> length (snd st) <= length (snd st') + n * k.
Proof.
  intros Hf. induction n as [|n IH]; intros st st' Hin; cbn in Hin.
  - destruct Hin as [<-|[]]. lia.
  - apply in_flat_map in Hin as (mid & Hmid & Hin).
    apply Hf in Hmid. apply IH in Hin. lia.
Qed.

Lemma run_max_length (r : Regex) :
  forall (k : nat) (st st' : Pos),
  max_length r = Some k ->
  In st' (run r st) -> length (snd st) <= length (snd st') + k.
Proof.
  induction r as [|p|r1 IH1 r2 IH2|r1 IH1|n p|n r1 IH1]; intros k st st' Hk Hin;
    cbn [run max_length] in *.
  - destruct (at_boundary st); [|contradiction].
    destruct Hin as [<-|[]]. lia.
  - injection Hk as <-.
    destruct (snd st) as [|c s] eqn:E; [contradiction|].
    destruct (p c); [|contradiction].
    destruct Hin as [<-|[]]. cbn. lia.
  - destruct (max_length r1) as [a|]; [|discriminate].
    destruct (max_length r2) as [b|]; [|discriminate]. injection Hk as <-.
    apply in_flat_map in Hin as (mid & Hmid & Hin).
    apply (IH1 a _ _ eq_refl) in Hmid. apply (IH2 b _ _ eq_refl) in Hin. lia.
  - apply in_app_or in Hin as [Hin|[<-|[]]]; [|lia].
    apply (IH1 k _ _ Hk) in Hin. exact Hin.
  - discriminate.
  - destruct (max_length r1) as [a|]; [|discriminate]. injection Hk as <-.
    apply (repeat_run_max (run r1) a (fun st st' => IH1 a st st' eq_refl)) in Hin.
    exact Hin.
Qed.

Lemma string_length_app (s t : string) :
  String.length (s ++ t)%string = String.length s + String.length t.
Proof. induction s as [|c s IH]; [reflexivity | exact (f_equal S IH)]. Qed.

Lemma includes_prefix (text search : string) :
  String.prefix search text = true -> includes text search = true.
Proof. intros H. destruct text; cbn [includes]; rewrite H; reflexivity. Qed.

Lemma prefix_app (m post : list ascii) :
  String.prefix (string_of_list_ascii m) (string_of_list_ascii (m ++ post)) = true.
Proof.
  induction m as [|c m IH].
  - destruct (string_of_list_ascii ([] ++ post)); reflexivity.
  - cbn. destruct (ascii_dec c c); [exact IH | congruence].
Qed.

Lemma includes_middle (pre m post : list ascii) :
  includes (string_of_list_ascii (pre ++ m ++ post)) (string_of_list_ascii m) = true.
Proof.
  induction pre as [|c pre IH].
  - cbn [app]. apply includes_prefix. apply (prefix_app m post).
  - cbn [app string_of_list_ascii includes]. rewrite IH. apply orb_true_r.
Qed.

(** What one [exec] returns: it starts at or after [lastIndex], is the text
    at its index, and has a length between the bounds of the pattern. *)
Lemma search_shape (r : Regex) (s : list ascii) :
  forall (prev : option ascii) (index i : nat) (m : string),
  search r prev s index = Some (i, m) ->
  exists pre post,
    s = pre ++ list_ascii_of_string m ++ post /\ index + length pre = i /\
    forall k, max_length r = Some k -> String.length m <= k.
Proof.
  induction s as [|c s IH]; intros prev index i m H; cbn [search] in H.
  - destruct (run r (prev, [])) as [|st' ?] eqn:E; [discriminate|].
    injection H as <- <-. exists [], []. cbn. split; [reflexivity|].
    split; [lia|]. intros k Hk. lia.
  - destruct (run r (prev, c :: s)) as [|st' ?] eqn:E.
    + apply IH in H as (pre & post & -> & <- & Hmax).
      exists (c :: pre), post. cbn. split; [reflexivity|]. split; [lia|]. exact Hmax.
    + injection H as <- <-.
      assert (Hin : In st' (run r (prev, c :: s))) by (rewrite E; left; reflexivity).
      pose proof (run_suffix r _ _ Hin) as [pre Hpre]. cbn [snd] in Hpre.
      exists [], (snd st'). rewrite list_ascii_of_string_of_list_ascii.
      assert (Hlen : S (length s) - length (snd st') = length pre).
      { apply (f_equal length) in Hpre. rewrite length_app in Hpre.
        cbn [length] in Hpre. lia. }
      rewrite Hpre, Hlen, take_app_length.
      cbn [app]. split; [reflexivity|]. split; [cbn; lia|].
      intros k Hk. rewrite string_of_list_ascii_length.
      pose proof (run_max_length r k _ _ Hk Hin) as Hle. cbn [snd length] in Hle.
      lia.
Qed.

Lemma exec_shape (r : Regex) (text : string) (lastIndex i : nat) (m : string) :
  exec r text lastIndex = Some (i, m) ->
  includes text m = true
  /\ min_length r <= String.length m
  /\ i + String.length m <= String.length text
  /\ forall k, max_length r = Some k -> String.length m <= k.
Proof.
  intros H. pose proof (exec_bounds r text lastIndex i m H) as (_ & Hend & Hmin).
  unfold exec in H.
  destruct (length (list_ascii_of_string text) <? lastIndex); [discriminate|].
  apply search_shape in H as (pre & post & Hs & _ & Hmax).
  repeat split; try assumption.
  rewrite <- (string_of_list_ascii_of_string text).
  rewrite <- (string_of_list_ascii_of_string m).
  rewrite <- (take_drop lastIndex (list_ascii_of_string text)), Hs, app_assoc.
  apply includes_middle.
Qed.

Lemma matches_from_Forall (P : nat * string -> Prop) (r : Regex) (text : string) :
  (forall lastIndex m, exec r text lastIndex = Some m -> P m) ->
  forall fuel lastIndex ms,
  matches_from fuel r text lastIndex = Ok ms -> Forall P ms.
Proof.
  intros HP. induction fuel as [|fuel IH]; intros lastIndex ms H; cbn in H;
    [discriminate|].
  destruct (exec r text lastIndex) as [m|] eqn:E.
  - destruct (matches_from fuel r text (fst m + String.length (snd m)))
      as [rest|] eqn:Hrest; [|discriminate].
    injection H as <-. constructor; [exact (HP _ _ E) | exact (IH _ _ Hrest)].
  - injection H as <-. constructor.
Qed.

Lemma all_matches_Forall (P : nat * string -> Prop) (r : Regex) (text : string) :
  (forall lastIndex m, exec r text lastIndex = Some m -> P m) ->
  Forall P (all_matches r text).
Proof.
  intros HP. unfold all_matches.
  destruct (matches_from (String.length text + 2) r text 0) as [ms|] eqn:E.
  - exact (matches_from_Forall P r text HP _ _ _ E).
  - constructor.
Qed.

Lemma PATTERNS_window (patternType : PatternType) (n : nat) :
  min_length (PATTERNS patternType) <= n ->
  (forall k, max_length (PATTERNS patternType) = Some k -> n <= k) ->
  length_in_window patternType n.
Proof.
  intros Hmin Hmax. destruct patternType; cbn [length_in_window].
  - specialize (Hmax 11 eq_refl). vm_compute in Hmin. lia.
  - vm_compute in Hmin. lia.
  - specialize (Hmax 17 eq_refl). vm_compute in Hmin. lia.
  - specialize (Hmax 19 eq_refl). vm_compute in Hmin. lia.
Qed.

(** ** What the pattern locator reports *)

Lemma add_match_eq (pageNum : nat) (viewport : Viewport)
    (positionMap : list Position) (patternType : PatternType)
    (matches : list PatternMatch.t) (m : nat * string) :
  add_match pageNum viewport positionMap patternType matches m
  = match first_position positionMap (fst m) with
    | Some pos => matches ++ [pattern_match_of pageNum viewport patternType m pos]
    | None => matches
    end.
Proof. reflexivity. Qed.

Lemma add_match_cons (pageNum : nat) (viewport : Viewport)
    (positionMap : list Position) (patternType : PatternType)
    (m : nat * string) (ms : list (nat * string)) :
  foldl (add_match pageNum viewport positionMap patternType) [] (m :: ms)
  = add_match pageNum viewport positionMap patternType [] m
    ++ foldl (add_match pageNum viewport positionMap patternType) [] ms.
Proof. cbn [foldl]. apply add_match_fold. Qed.

Lemma add_match_Forall (Q : PatternMatch.t -> Prop) (pageNum : nat)
    (viewport : Viewport) (positionMap : list Position)
    (patternType : PatternType) (ms : list (nat * string)) :
  (forall m pos, In m ms -> first_position positionMap (fst m) = Some pos ->
                 Q (pattern_match_of pageNum viewport patternType m pos)) ->
  Forall Q (foldl (add_match pageNum viewport positionMap patternType) [] ms).
Proof.
  induction ms as [|m ms IH]; intros H; [constructor|].
  rewrite add_match_cons. apply Forall_app. split.
  - rewrite add_match_eq.
    destruct (first_position positionMap (fst m)) as [pos|] eqn:E; [|constructor].
    cbn [app]. constructor; [|constructor].
    apply H; [left; reflexivity | exact E].
  - apply IH. intros m' pos Hin. apply H. right. exact Hin.
Qed.

Lemma detect_pages_Forall (Q : PatternMatch.t -> Prop)
    (patternTypes : list PatternType) (pages : list Page) :
  forall k,
  (forall j page patternType,
     pages !! j = Some page -> In patternType patternTypes ->
     Forall Q (page_pattern_matches (S (k + j)) page patternType)) ->
  Forall Q (detect_pages patternTypes (S k) pages).
Proof.
  induction pages as [|p ps IH]; intros k H; cbn [detect_pages]; [constructor|].
  apply Forall_app. split.
  - apply Forall_forall. intros m Hm. apply list_elem_of_In in Hm.
    apply in_flat_map in Hm as (pt & Hpt & Hm).
    specialize (H 0 p pt eq_refl Hpt). rewrite Nat.add_0_r in H.
    rewrite Forall_forall in H. apply H. apply list_elem_of_In. exact Hm.
  - apply IH. intros j page pt Hp Hpt. rewrite <- Nat.add_succ_r.
    apply (H (S j) page pt Hp Hpt).
Qed.

(** X13.  Every match of the pattern locator lies on a page of the document,
    has one of the requested categories, carries the matched text both as
    [text] and as [pattern], and that text occurs in the text of its page and
    has a length the category allows: 9 to 11 characters for an SSN, 7 to 17
    for a phone number, 16 to 19 for a card number, at least 6 for an e-mail
    address. *)
Theorem detected_matches_shape (doc : PdfFile) (patternTypes : list PatternType) :
  exists ms,
    detectSensitivePatterns (PdfData doc) patternTypes = Ok ms /\
    forall m, In m ms ->
      In (PatternMatch.patternType m) patternTypes /\
      PatternMatch.pattern m = PatternMatch.text m /\
      length_in_window (PatternMatch.patternType m)
                       (String.length (PatternMatch.text m)) /\
      exists page,
        pdf_pages doc !! PatternMatch.pageIndex m = Some page /\
        includes (page_text page) (PatternMatch.text m) = true.
Proof.
  rewrite detectSensitivePatterns_eq. eexists. split; [reflexivity|].
  intros m Hm. apply list_elem_of_In in Hm. revert m Hm. apply Forall_forall.
  apply (detect_pages_Forall _ patternTypes (pdf_pages doc) 0).
  intros j page pt Hp Hpt. cbn [Nat.add].
  unfold page_pattern_matches.
  destruct (build_fullText (getTextContent page)) as [fullText positionMap] eqn:Hb.
  apply add_match_Forall. intros mt pos Hmt _.
  assert (Hall : Forall (fun mt => includes fullText (snd mt) = true
                                   /\ length_in_window pt (String.length (snd mt)))
                        (all_matches (PATTERNS pt) fullText)).
  { apply all_matches_Forall. intros lastIndex [i txt] Hexec.
    apply exec_shape in Hexec as (Hinc & Hmin & _ & Hmax).
    split; [exact Hinc|]. apply PATTERNS_window; assumption. }
  rewrite Forall_forall in Hall.
  destruct (Hall mt (proj2 (list_elem_of_In _ _) Hmt)) as [Hinc Hwin].
  cbn [pattern_match_of PatternMatch.patternType PatternMatch.pattern
       PatternMatch.text PatternMatch.pageIndex].
  repeat split; try assumption.
  exists page. replace (S j - 1) with j by lia. split; [exact Hp|].
  unfold page_text. rewrite Hb. exact Hinc.
Qed.

(** ** The position map *)

Lemma tiles_snoc (positionMap : list Position) (textItem : TextItem.t) :
  forall from to,
  tiles from positionMap to ->
  tiles from
        (positionMap
         ++ [ {| pos_start := to;
                 pos_end := to + String.length (TextItem.str textItem);
                 pos_item := textItem |} ])
        (S (to + String.length (TextItem.str textItem))).
Proof.
  induction positionMap as [|pos rest IH]; intros from to H; cbn [tiles app] in *.
  - subst to. cbn. repeat split; reflexivity.
  - destruct H as (Hs & He & Hrest). repeat split; try assumption.
    apply IH. exact Hrest.
Qed.

Lemma add_item_tiles (items : list Item) :
  forall (fullText : string) (positionMap : list Position),
  tiles 0 positionMap (String.length fullText) ->
  tiles 0 (snd (foldl add_item (fullText, positionMap) items))
        (String.length (fst (foldl add_item (fullText, positionMap) items))).
Proof.
  induction items as [|item items IH]; intros fullText positionMap H; cbn [foldl].
  - exact H.
  - destruct item as [textItem|]; cbn [add_item]; [|apply IH; exact H].
    apply IH. rewrite !string_length_app. cbn [String.length].
    replace (String.length fullText + (String.length (TextItem.str textItem) + 1) - 1)
      with (String.length fullText + String.length (TextItem.str textItem)) by lia.
    replace (String.length fullText + (String.length (TextItem.str textItem) + 1))
      with (S (String.length fullText + String.length (TextItem.str textItem))) by lia.
    apply tiles_snoc. exact H.
Qed.

(** The ranges of the position map cover the page text without a gap. *)
Lemma build_fullText_tiles (items : list Item) :
  tiles 0 (snd (build_fullText items)) (String.length (fst (build_fullText items))).
Proof. unfold build_fullText. apply add_item_tiles. reflexivity. Qed.

Lemma tiles_le (positionMap : list Position) :
  forall from to, tiles from positionMap to ->
  from <= to /\ Forall (fun pos => from <= pos_start pos) positionMap.
Proof.
  induction positionMap as [|pos rest IH]; intros from to H; cbn [tiles] in H.
  - subst. split; [lia | constructor].
  - destruct H as (Hs & He & Hrest). apply IH in Hrest as [Hle Hall].
    split; [lia|]. constructor; [lia|].
    eapply Forall_impl; [exact Hall|]. cbn. intros q Hq. lia.
Qed.

Lemma first_position_total (positionMap : list Position) :
  forall from to k,
  tiles from positionMap to -> from <= k < to ->
  exists pos, first_position positionMap k = Some pos.
Proof.
  induction positionMap as [|pos rest IH]; intros from to k H Hk; cbn [tiles] in H.
  - lia.
  - destruct H as (Hs & He & Hrest). unfold first_position. cbn [find].
    destruct ((pos_start pos <=? k) && (k <=? pos_end pos)) eqn:E.
    + exists pos. reflexivity.
    + apply andb_false_iff in E.
      assert (Hgt : S (pos_end pos) <= k).
      { destruct E as [E|E]; [apply Nat.leb_gt in E | apply Nat.leb_gt in E]; lia. }
      apply (IH (S (pos_end pos)) to k Hrest). lia.
Qed.

Lemma add_match_texts (pageNum : nat) (viewport : Viewport)
    (positionMap : list Position) (patternType : PatternType)
    (ms : list (nat * string)) :
  Forall (fun m => exists pos, first_position positionMap (fst m) = Some pos) ms ->
  map PatternMatch.text
      (foldl (add_match pageNum viewport positionMap patternType) [] ms)
  = map snd ms.
Proof.
  induction 1 as [|m ms [pos Hpos] _ IH]; [reflexivity|].
  rewrite add_match_cons, map_app, IH, add_match_eq, Hpos. reflexivity.
Qed.

Lemma page_pattern_matches_texts (pageNum : nat) (page : Page)
    (patternType : PatternType) :
  map PatternMatch.text (page_pattern_matches pageNum page patternType)
  = map snd (all_matches (PATTERNS patternType) (page_text page)).
Proof.
  unfold page_pattern_matches, page_text.
  pose proof (build_fullText_tiles (getTextContent page)) as Htiles.
  destruct (build_fullText (getTextContent page)) as [fullText positionMap].
  cbn [fst snd] in *. apply add_match_texts.
  apply all_matches_Forall. intros lastIndex [i txt] Hexec.
  apply exec_shape in Hexec as (_ & Hmin & Hend & _).
  pose proof (PATTERNS_min_length patternType).
  apply (first_position_total positionMap 0 (String.length fullText) i Htiles).
  cbn [fst]. lia.
Qed.

(** X14.  No occurrence is lost between the pattern and the report: for one
    category, the texts of the matches returned are, page after page and in
    order, exactly the occurrences that the loop over [regex.exec] goes
    through in the text of each page.  The search through the position map
    always finds a run for the start of an occurrence. *)
Theorem every_occurrence_reported (doc : PdfFile) (patternType : PatternType) :
  exists ms,
    detectSensitivePatterns (PdfData doc) [patternType] = Ok ms /\
    map PatternMatch.text ms
    = flat_map (fun page => map snd (all_matches (PATTERNS patternType)
                                                 (page_text page)))
               (pdf_pages doc).
Proof.
  rewrite detectSensitivePatterns_eq. eexists. split; [reflexivity|].
  generalize 1. induction (pdf_pages doc) as [|p ps IH]; intros k;
    cbn [detect_pages flat_map]; [reflexivity|].
  rewrite app_nil_r, map_app, IH, page_pattern_matches_texts. reflexivity.
Qed.

(** ** A match inside one run *)

Lemma overlapping_positions_none (positionMap : list Position) (matchStart matchEnd : nat) :
  Forall (fun pos => matchEnd <= pos_start pos) positionMap ->
  overlapping_positions positionMap matchStart matchEnd = [].
Proof.
  unfold overlapping_positions.
  induction 1 as [|pos rest Hpos _ IH]; [reflexivity|]. cbn [List.filter].
  apply Nat.ltb_ge in Hpos. rewrite Hpos. cbn [andb]. exact IH.
Qed.

Lemma overlapping_positions_single (positionMap : list Position) :
  forall from to matchStart matchEnd pos,
  tiles from positionMap to ->
  from <= matchStart -> matchStart < matchEnd ->
  first_position positionMap matchStart = Some pos ->
  matchEnd <= pos_end pos ->
  overlapping_positions positionMap matchStart matchEnd = [pos].
Proof.
  induction positionMap as [|p rest IH];
    intros from to matchStart matchEnd pos H Hfrom Hlt Hfirst Hend;
    [discriminate|].
  cbn [tiles] in H. destruct H as (Hs & He & Hrest).
  unfold first_position in Hfirst. cbn [find] in Hfirst.
  unfold overlapping_positions. cbn [List.filter].
  destruct ((pos_start p <=? matchStart) && (matchStart <=? pos_end p)) eqn:E.
  - injection Hfirst as <-.
    apply andb_true_iff in E as [E1 E2].
    apply Nat.leb_le in E1. apply Nat.leb_le in E2.
    assert (H1 : (pos_start p <? matchEnd) = true) by (apply Nat.ltb_lt; lia).
    assert (H2 : (matchStart <? pos_end p) = true) by (apply Nat.ltb_lt; lia).
    rewrite H1, H2. cbn [andb]. f_equal.
    apply (overlapping_positions_none rest matchStart matchEnd).
    apply tiles_le in Hrest as [_ Hall].
    eapply Forall_impl; [exact Hall|]. cbn. intros q Hq. lia.
  - assert (Hgt : S (pos_end p) <= matchStart).
    { apply andb_false_iff in E.
      destruct E as [E|E]; apply Nat.leb_gt in E; lia. }
    assert (H2 : (matchStart <? pos_end p) = false) by (apply Nat.ltb_ge; lia).
    rewrite H2, andb_false_r.
    apply (IH (S (pos_end p)) to matchStart matchEnd pos Hrest Hgt Hlt Hfirst Hend).
Qed.

(** X15.  When an occurrence ends within the run in which it starts (it does
    not reach the separator after that run), that run is the only one whose
    range it overlaps, and the match reported for it has exactly the box
    that the union of the overlapping runs gives. *)
Theorem match_inside_one_run (items : list Item) (pageNum : nat)
    (viewport : Viewport) (patternType : PatternType)
    (matchStart : nat) (txt : string) (pos : Position) :
  first_position (snd (build_fullText items)) matchStart = Some pos ->
  0 < String.length txt ->
  matchStart + String.length txt <= pos_end pos ->
  exists m,
    add_match pageNum viewport (snd (build_fullText items)) patternType []
              (matchStart, txt) = [m] /\
    overlapping_positions (snd (build_fullText items)) matchStart
                          (matchStart + String.length txt) = [pos] /\
    span_union (vp_height viewport) (snd (build_fullText items)) matchStart
               (matchStart + String.length txt)
    = Some (box_of_match m).
Proof.
  intros Hfirst Hlen Hend.
  pose proof (build_fullText_tiles items) as Htiles.
  assert (Hov : overlapping_positions (snd (build_fullText items)) matchStart
                  (matchStart + String.length txt) = [pos]).
  { apply (overlapping_positions_single _ 0 _ _ _ _ Htiles); try assumption; lia. }
  rewrite add_match_eq. cbn [fst]. rewrite Hfirst. cbn [app].
  eexists. split; [reflexivity|]. split; [exact Hov|].
  unfold span_union. rewrite Hov. reflexivity.
Qed.

Lemma match_inside_one_run_witness :
  exists m,
    add_match 1 (getViewport page_conf 1)
      (snd (build_fullText (getTextContent
         (letter_page [text_item "SSN: 123-45-6789" 72 720 96 12;
                       text_item "Nothing to hide" 72 700 90 12] true))))
      ssn [] (5, "123-45-6789") = [m] /\
    overlapping_positions
      (snd (build_fullText (getTextContent
         (letter_page [text_item "SSN: 123-45-6789" 72 720 96 12;
                       text_item "Nothing to hide" 72 700 90 12] true))))
      5 (5 + String.length "123-45-6789")
    = [ {| pos_start := 0; pos_end := 16;
           pos_item := text_item "SSN: 123-45-6789" 72 720 96 12 |} ] /\
    span_union (vp_height (getViewport page_conf 1))
      (snd (build_fullText (getTextContent
         (letter_page [text_item "SSN: 123-45-6789" 72 720 96 12;
                       text_item "Nothing to hide" 72 700 90 12] true))))
      5 (5 + String.length "123-45-6789")
    = Some (box_of_match m).
Proof.
  apply (match_inside_one_run
           (getTextContent
              (letter_page [text_item "SSN: 123-45-6789" 72 720 96 12;
                            text_item "Nothing to hide" 72 700 90 12] true))
           1 (getViewport page_conf 1) ssn 5 "123-45-6789"
           {| pos_start := 0; pos_end := 16;
              pos_item := text_item "SSN: 123-45-6789" 72 720 96 12 |}).
  - reflexivity.
  - cbn. lia.
  - cbn. lia.
Defined.

(** * Properties of the callers *)

(** ** The selection of categories *)

Lemma JsSet_has_true (x : PatternType) (s : list PatternType) :
  JsSet.has x s = true <-> x ∈ s.
Proof. unfold JsSet.has. apply bool_decide_eq_true. Qed.

Lemma JsSet_has_false (x : PatternType) (s : list PatternType) :
  JsSet.has x s = false <-> x ∉ s.
Proof. unfold JsSet.has. apply bool_decide_eq_false. Qed.

Lemma of_iterable_fold (l acc : list PatternType) :
  NoDup (acc ++ l) -> foldl (fun s x => JsSet.add x s) acc l = acc ++ l.
Proof.
  revert acc. induction l as [|x l IH]; intros acc H; cbn [foldl].
  - rewrite app_nil_r. reflexivity.
  - assert (Hx : x ∉ acc).
    { apply NoDup_app in H as (_ & Hdisj & _). intros Hin.
      apply (Hdisj x Hin). left. }
    unfold JsSet.add at 2. rewrite (proj2 (JsSet_has_false x acc) Hx).
    rewrite IH; rewrite <- app_assoc; [reflexivity | exact H].
Qed.

Lemma of_iterable_NoDup (s : list PatternType) :
  NoDup s -> JsSet.of_iterable s = s.
Proof. intros H. unfold JsSet.of_iterable. apply (of_iterable_fold s []). exact H. Qed.

Lemma togglePattern_spec (p : PatternType) (s : list PatternType) :
  NoDup s ->
  NoDup (togglePattern p s)
  /\ forall c, c ∈ togglePattern p s <-> (if decide (c = p) then p ∉ s else c ∈ s).
Proof.
  intros H. unfold togglePattern. rewrite (of_iterable_NoDup s H).
  destruct (JsSet.has p s) eqn:E.
  - apply JsSet_has_true in E. unfold JsSet.delete. split.
    + apply NoDup_filter. exact H.
    + intros c. rewrite list_elem_of_filter.
      destruct (decide (c = p)) as [->|Hne]; [tauto|]. tauto.
  - apply JsSet_has_false in E. unfold JsSet.add.
    rewrite (proj2 (JsSet_has_false p s) E). split.
    + apply NoDup_app. repeat split; [exact H | | apply NoDup_singleton].
      intros x Hx Hp. apply list_elem_of_singleton in Hp. subst. contradiction.
    + intros c. rewrite elem_of_app, list_elem_of_singleton.
      destruct (decide (c = p)) as [->|Hne]; [tauto|]. tauto.
Qed.

Lemma selected_after_spec (clicks : list PatternType) :
  NoDup (selected_after clicks)
  /\ forall c, c ∈ selected_after clicks
               <-> Nat.even (count_occ PatternType_eq_dec clicks c) = true.
Proof.
  induction clicks as [|p clicks IH] using rev_ind.
  - split.
    + apply all_patternTypes_NoDup.
    + intros c. cbn. split; [reflexivity|]. intros _.
      apply (all_patternTypes_complete c).
  - destruct IH as [Hnd Hmem].
    unfold selected_after in *. rewrite foldl_app. cbn [foldl].
    destruct (togglePattern_spec p _ Hnd) as [Hnd' Hmem'].
    split; [exact Hnd'|]. intros c. rewrite Hmem', count_occ_app. cbn [count_occ].
    destruct (decide (c = p)) as [->|Hne].
    + destruct (PatternType_eq_dec p p) as [_|]; [|congruence].
      rewrite Nat.add_1_r, Nat.even_succ, <- Nat.negb_even.
      rewrite Hmem. destruct (Nat.even (count_occ PatternType_eq_dec clicks p));
        cbn; split; congruence.
    + destruct (PatternType_eq_dec p c) as [->|_]; [congruence|].
      rewrite Nat.add_0_r. apply Hmem.
Qed.

(** X16.  Whatever buttons are clicked, the selection never holds a category
    twice, and a category is selected exactly when its button was clicked an
    even number of times (all four are selected at the start). *)
Theorem selection_after_clicks (clicks : list PatternType) :
  NoDup (selected_after clicks)
  /\ forall c, c ∈ selected_after clicks
               <-> Nat.even (count_occ PatternType_eq_dec clicks c) = true.
Proof. exact (selected_after_spec clicks). Qed.




(** ** Applying the redactions in the editor *)




(** ** Redact, then sanitize *)

(** X19.  Sanitizing what the renderer returned always succeeds and keeps it
    redacted: on the sanitized document the verifier succeeds for any
    regions, [getPdfInfo] reports the page count of the input, no text and no
    metadata, and the document carries the sanitizer's producer and the
    dates of the sanitizing. *)
Theorem redact_then_sanitize (now created modified : Z) (doc : PdfFile)
    (out : ArrayBuffer) (areas : list RedactionArea.t) (renderScale : Q) :
  redactPdfByAreas now (PdfData doc) areas renderScale = Ok out ->
  exists outdoc,
    sanitizePdf created modified out = Ok (PdfData outdoc) /\
    (forall regions, verifyRedaction (PdfData outdoc) regions
                     = Ok {| success := true; extractedText := [] |}) /\
    getPdfInfo (PdfData outdoc)
    = Ok {| pageCount := numPages doc; title := Some ""; author := Some "";
            hasMetadata := false; hasExtractableText := false;
            textSample := "" |} /\
    md_producer (pdf_info outdoc) = Some "ActuallyRedactPDF - Sanitized" /\
    md_creator (pdf_info outdoc) = Some "ActuallyRedactPDF" /\
    md_creationDate (pdf_info outdoc) = Some created /\
    md_modificationDate (pdf_info outdoc) = Some modified.
Proof.
  intros E. apply redactPdfByAreas_inv in E as (doc' & Ed & _ & ->).
  injection Ed as <-. rewrite sanitizePdf_eq.
  eexists. split; [reflexivity|]. split.
  - intros regions. apply verify_no_text. cbn. apply flatten_pages_no_text.
  - split; [|repeat split; reflexivity].
    unfold getPdfInfo. cbn [PDFDocument.load getDocument bind].
    unfold numPages, getPage. cbn [sanitized pdf_pages pdf_info].
    rewrite flatten_pages_length.
    destruct (pdf_pages doc) as [|p ps]; reflexivity.
Qed.

Lemma redact_then_sanitize_witness :
  exists outdoc,
    sanitizePdf 10 11 (PdfData doc_ssn_redacted) = Ok (PdfData outdoc) /\
    (forall regions, verifyRedaction (PdfData outdoc) regions
                     = Ok {| success := true; extractedText := [] |}) /\
    getPdfInfo (PdfData outdoc)
    = Ok {| pageCount := numPages doc_ssn; title := Some ""; author := Some "";
            hasMetadata := false; hasExtractableText := false;
            textSample := "" |} /\
    md_producer (pdf_info outdoc) = Some "ActuallyRedactPDF - Sanitized" /\
    md_creator (pdf_info outdoc) = Some "ActuallyRedactPDF" /\
    md_creationDate (pdf_info outdoc) = Some 10%Z /\
    md_modificationDate (pdf_info outdoc) = Some 11%Z.
Proof.
  apply (redact_then_sanitize 0 10 11 doc_ssn (PdfData doc_ssn_redacted)
           [area_ssn] default_renderScale).
  vm_compute. reflexivity.
Defined.

(** ** Every match is painted *)

(** X20.  In the batch flow, where the matches of the pattern locator go
    straight to the renderer, every match is painted: the rectangles filled
    on the output are, up to their order, the scaled boxes of all the
    matches, one for each. *)
Theorem every_match_painted (now : Z) (doc : PdfFile) (out : ArrayBuffer)
    (patternTypes : list PatternType) (matches : list PatternMatch.t)
    (renderScale : Q) :
  detectSensitivePatterns (PdfData doc) patternTypes = Ok matches ->
  redactPdfByAreas now (PdfData doc) (patternMatchesToRedactions matches)
                   renderScale = Ok out ->
  exists outdoc, out = PdfData outdoc /\
    flat_map masks_of_page (pdf_pages outdoc)
    ≡ₚ map (mask renderScale) (patternMatchesToRedactions matches) /\
    length (flat_map masks_of_page (pdf_pages outdoc)) = length matches.
Proof.
  intros Hd Hr. rewrite detectSensitivePatterns_eq in Hd. injection Hd as <-.
  apply redactPdfByAreas_inv in Hr as (doc' & E & _ & ->).
  injection E as <-. eexists. split; [reflexivity|]. cbn [pdf_pages].
  assert (Hin : Forall (fun m => PatternMatch.pageIndex m < length (pdf_pages doc))
                       (detect_pages patternTypes 1 (pdf_pages doc))).
  { apply (detect_pages_Forall _ patternTypes (pdf_pages doc) 0).
    intros j page pt Hp _. cbn [Nat.add]. unfold page_pattern_matches.
    destruct (build_fullText (getTextContent page)) as [fullText positionMap].
    apply add_match_Forall. intros mt pos _ _.
    cbn [pattern_match_of PatternMatch.pageIndex].
    apply lookup_lt_Some in Hp. lia. }
  assert (Hperm :
    flat_map masks_of_page
      (flatten_pages (patternMatchesToRedactions
                        (detect_pages patternTypes 1 (pdf_pages doc)))
                     renderScale 0 (pdf_pages doc))
    ≡ₚ map (mask renderScale)
         (patternMatchesToRedactions (detect_pages patternTypes 1 (pdf_pages doc)))).
  { rewrite masks_of_flatten_pages.
    assert (E : filter (fun a => 0 <= RedactionArea.pageIndex a
                                 < 0 + length (pdf_pages doc))
                  (patternMatchesToRedactions
                     (detect_pages patternTypes 1 (pdf_pages doc)))
                = patternMatchesToRedactions
                    (detect_pages patternTypes 1 (pdf_pages doc))).
    { unfold patternMatchesToRedactions.
      induction Hin as [|m l Hm _ IH]; [reflexivity|]. cbn [map].
      rewrite filter_cons_True by (cbn; lia). rewrite IH. reflexivity. }
    rewrite E. reflexivity. }
  split; [exact Hperm|].
  rewrite (Permutation_length Hperm). unfold patternMatchesToRedactions.
  rewrite !length_map. reflexivity.
Qed.

Lemma every_match_painted_witness :
  exists outdoc,
    PdfData {| pdf_pages :=
                 flatten_pages
                   (patternMatchesToRedactions
                      (detect_pages all_patternTypes 1 (pdf_pages doc_mixed)))
                   default_renderScale 0 (pdf_pages doc_mixed);
               pdf_info := redacted_info 0 |} = PdfData outdoc /\
    flat_map masks_of_page (pdf_pages outdoc)
    ≡ₚ map (mask default_renderScale)
         (patternMatchesToRedactions
            (detect_pages all_patternTypes 1 (pdf_pages doc_mixed))) /\
    length (flat_map masks_of_page (pdf_pages outdoc))
    = length (detect_pages all_patternTypes 1 (pdf_pages doc_mixed)).
Proof.
  apply (every_match_painted 0 doc_mixed _ all_patternTypes
           (detect_pages all_patternTypes 1 (pdf_pages doc_mixed))
           default_renderScale).
  - vm_compute. reflexivity.
  - vm_compute. reflexivity.
Defined.

(** ** The batch processor *)





(** On [batch_two]: the first file cannot be rasterized and is marked as
    failed; the second is redacted all the same and is the only output. *)
Example processAllFiles_batch_two :
  map fst (Batch.processedFiles (processAllFiles (fun _ => 0%Z) batch_two))
  = ["payroll-redacted.pdf"]
  /\ map BatchFile.status (Batch.files (processAllFiles (fun _ => 0%Z) batch_two))
     = [Status.error; Status.done].
Proof. vm_compute. split; reflexivity. Qed.

(** *** Scanning *)







(** On [batch_dropped]: the file that parses is scanned and holds its e-mail
    address; the one that does not is marked as failed. *)
Example scanAllFiles_batch_dropped :
  map (fun f => (BatchFile.status f, map PatternMatch.text (BatchFile.patterns f),
                 BatchFile.error f))
      (Batch.files (scanAllFiles batch_dropped))
  = [(Status.scanned, ["a@b.com"], None);
     (Status.error, [], Some "Scan failed")].
Proof. vm_compute. reflexivity. Qed.

(** ** File names *)

Lemma prefix_pdf_app (s : string) :
  s <> EmptyString ->
  String.prefix ".pdf" (s ++ ".pdf") = String.prefix ".pdf" s.
Proof.
  intros Hs. destruct s as [|c1 [|c2 [|c3 [|c4 s]]]]; [contradiction| | | |];
    cbn;
    repeat match goal with
           | |- context [ascii_dec ?a ?b] => destruct (ascii_dec a b)
           end; try reflexivity; try discriminate.
  all: destruct (s ++ ".pdf")%string; destruct s; reflexivity.
Qed.

Lemma includes_cons_false (c : ascii) (text search : string) :
  includes (String c text) search = false ->
  String.prefix search (String c text) = false /\ includes text search = false.
Proof. cbn [includes]. intros H. apply orb_false_iff in H. exact H. Qed.

Lemma redacted_name_without (name : string) :
  includes name ".pdf" = false -> redacted_name name = name.
Proof.
  unfold redacted_name. induction name as [|c name IH]; intros H.
  - reflexivity.
  - apply includes_cons_false in H as [Hp Hrest].
    cbn [replace_first]. rewrite Hp, (IH Hrest). reflexivity.
Qed.

Lemma redacted_name_suffix (base : string) :
  includes base ".pdf" = false ->
  redacted_name (base ++ ".pdf") = (base ++ "-redacted.pdf")%string.
Proof.
  unfold redacted_name. induction base as [|c base IH]; intros H.
  - reflexivity.
  - apply includes_cons_false in H as [Hp Hrest].
    change (String c base ++ ".pdf")%string with (String c (base ++ ".pdf")).
    cbn [replace_first].
    change (String c (base ++ ".pdf")) with (String c base ++ ".pdf")%string.
    rewrite prefix_pdf_app by discriminate. rewrite Hp.
    change (String c base ++ "-redacted.pdf")%string
      with (String c (base ++ "-redacted.pdf")).
    rewrite (IH Hrest). reflexivity.
Qed.

(** X23.  The name given to a download.  It is never empty.  A name that
    does not contain [.pdf] is kept as it is (unless it is empty, when the
    download is called [redacted.pdf]); a name made of a base without
    [.pdf] followed by [.pdf] becomes the base followed by
    [-redacted.pdf]. *)
Theorem download_name_cases (pdfFile : option string) :
  download_name pdfFile <> EmptyString
  /\ (forall name, pdfFile = Some name -> name <> EmptyString ->
        includes name ".pdf" = false -> download_name pdfFile = name)
  /\ (forall base, pdfFile = Some (base ++ ".pdf")%string ->
        includes base ".pdf" = false ->
        download_name pdfFile = (base ++ "-redacted.pdf")%string).
Proof.
  split; [|split].
  - unfold download_name. destruct pdfFile as [name|]; [|discriminate].
    destruct (redacted_name name) eqn:E; cbn [truthy]; discriminate.
  - intros name -> Hne Hinc. unfold download_name.
    rewrite (redacted_name_without name Hinc).
    destruct name; [contradiction | reflexivity].
  - intros base -> Hinc. unfold download_name.
    rewrite (redacted_name_suffix base Hinc).
    destruct base; reflexivity.
Qed.
